(** * Filename matching: the pattern matcher of [mercurial/match.py]

    A shallow embedding of the pattern splitter, the glob translator, the
    per-kind regex emitter, the pattern file reader, the normalizer, the
    root/dir extractor, the matcher builder, the matcher object and the
    subdirectory matcher, followed by the properties of the specification
    that were checked against them.

    Python byte strings are [string]; Python sets are [gset string]; a
    Python exception is a value of [exn]; the optional [warn] callback is a
    flag together with the list of messages it received. *)

From Stdlib Require Import String Ascii List Bool Arith Lia.
From stdpp Require Import base gmap strings list.
From Equations Require Import Equations.

Open Scope string_scope.

(** ** Python string operations used by the module *)

Module Py.

(** [s.startswith(p)] *)
Fixpoint startswith (s p : string) {struct p} : bool :=
  match p with
  | EmptyString => true
  | String a p' =>
      match s with
      | EmptyString => false
      | String b s' => if Ascii.eqb a b then startswith s' p' else false
      end
  end.

(** [s[n:]] *)
Fixpoint drop (n : nat) (s : string) : string :=
  match n, s with
  | O, _ => s
  | S _, EmptyString => EmptyString
  | S n', String _ s' => drop n' s'
  end.

(** [s[:n]] *)
Fixpoint take (n : nat) (s : string) : string :=
  match n, s with
  | O, _ => EmptyString
  | S _, EmptyString => EmptyString
  | S n', String c s' => String c (take n' s')
  end.

(** [s[i:i+1]]: the empty string when [i] is out of range *)
Definition char_at (i : nat) (s : string) : string := take 1 (drop i s).

(** [c in s] for a one-character [c] *)
Fixpoint has_char (c : ascii) (s : string) : bool :=
  match s with
  | EmptyString => false
  | String a s' => Ascii.eqb a c || has_char c s'
  end.

(** [s.split(c, 1)] when [c in s]: the text before and after the first [c] *)
Fixpoint partition (c : ascii) (s : string) : option (string * string) :=
  match s with
  | EmptyString => None
  | String a s' =>
      if Ascii.eqb a c then Some (EmptyString, s')
      else match partition c s' with
           | Some (l, r) => Some (String a l, r)
           | None => None
           end
  end.

(** [s.split(c)] *)
Fixpoint split (c : ascii) (s : string) : list string :=
  match s with
  | EmptyString => [EmptyString]
  | String a s' =>
      if Ascii.eqb a c then EmptyString :: split c s'
      else match split c s' with
           | w :: ws => String a w :: ws
           | [] => [String a EmptyString]
           end
  end.

(** [sep.join(l)] *)
Definition join (sep : string) (l : list string) : string := String.concat sep l.

(** the characters [str.strip] removes: space, TAB, LF, VT, FF, CR *)
Definition isspace (c : ascii) : bool :=
  let n := nat_of_ascii c in Nat.eqb n 32 || (Nat.leb 9 n && Nat.leb n 13).

Fixpoint lstrip (s : string) : string :=
  match s with
  | EmptyString => EmptyString
  | String c s' => if isspace c then lstrip s' else s
  end.

Fixpoint rstrip (s : string) : string :=
  match s with
  | EmptyString => EmptyString
  | String c s' =>
      match rstrip s' with
      | EmptyString => if isspace c then EmptyString else String c EmptyString
      | r => String c r
      end
  end.

Definition strip (s : string) : string := rstrip (lstrip s).

(** [s.splitlines()] of a byte string: breaks at LF, CR and CR LF, and no
    empty last line *)
Fixpoint splitlines_from (cur : string) (s : string) : list string :=
  match s with
  | EmptyString => if String.eqb cur "" then [] else [cur]
  | String c s' =>
      if Ascii.eqb c "010" then cur :: splitlines_from "" s'
      else if Ascii.eqb c "013" then
        match s' with
        | String d s'' =>
            if Ascii.eqb d "010" then cur :: splitlines_from "" s''
            else cur :: splitlines_from "" s'
        | EmptyString => [cur]
        end
      else splitlines_from (cur +:+ String c "") s'
  end.

Definition splitlines (s : string) : list string := splitlines_from "" s.

(** iterating over a file opened in binary mode: the lines with their LF *)
Fixpoint iterlines_from (cur : string) (s : string) : list string :=
  match s with
  | EmptyString => if String.eqb cur "" then [] else [cur]
  | String c s' =>
      if Ascii.eqb c "010" then (cur +:+ String c "") :: iterlines_from "" s'
      else iterlines_from (cur +:+ String c "") s'
  end.

Definition iterlines (s : string) : list string := iterlines_from "" s.

(** [s.replace(a, b)] for a one-character [a] *)
Fixpoint replace1 (a : ascii) (b : string) (s : string) : string :=
  match s with
  | EmptyString => EmptyString
  | String c s' => (if Ascii.eqb c a then b else String c "") +:+ replace1 a b s'
  end.

(** [s.replace(a1 a2, b)] for a two-character pattern, scanning from the
    left without overlap *)
Fixpoint replace2 (a1 a2 : ascii) (b : string) (s : string) : string :=
  match s with
  | EmptyString => EmptyString
  | String c s' =>
      match s' with
      | String d s'' =>
          if Ascii.eqb c a1 && Ascii.eqb d a2
          then b +:+ replace2 a1 a2 b s''
          else String c (replace2 a1 a2 b s')
      | EmptyString => String c EmptyString
      end
  end.

End Py.

(** ** Exceptions, results and the warning sink *)

(** The exceptions that leave the functions of the module.  [OutOfFuel]
    stands for Python's recursion limit: pattern files that include each
    other for ever, or subinclude files nested deeper than the fuel. *)
Inductive exn : Type :=
| Abort (msg : string)
| OverflowError
| IOError (strerror : string)
| OutOfFuel.

Inductive res (A : Type) : Type :=
| Ok (x : A)
| Raise (e : exn).
Arguments Ok {A} x.
Arguments Raise {A} e.

#[global] Instance res_ret : MRet res := fun A x => Ok x.
#[global] Instance res_bind : MBind res := fun A B f m =>
  match m with
  | Ok x => f x
  | Raise e => Raise e
  end.
#[global] Instance res_fmap : FMap res := fun A B f m =>
  match m with
  | Ok x => Ok (f x)
  | Raise e => Raise e
  end.

(** A computation that may call [warn]: its outcome and the messages passed
    to [warn], in order.  The messages sent before an exception stay sent. *)
Record M (A : Type) : Type := MkM { outcome : res A; warnings : list string }.
Arguments MkM {A} outcome warnings.
Arguments outcome {A} m.
Arguments warnings {A} m.

#[global] Instance M_ret : MRet M := fun A x => MkM (Ok x) [].
#[global] Instance M_bind : MBind M := fun A B f m =>
  match outcome m with
  | Ok x => MkM (outcome (f x)) (warnings m ++ warnings (f x))
  | Raise e => MkM (Raise e) (warnings m)
  end.

Definition raise {A : Type} (e : exn) : M A := MkM (Raise e) [].
Definition lift {A : Type} (r : res A) : M A := MkM r [].

(** [if warn: warn(msg)], where [warn] tells whether a callback was given *)
Definition do_warn (warn : bool) (msg : string) : M unit :=
  MkM (Ok tt) (if warn then [msg] else []).

(** [x in (a, b, ...)] on strings *)
Definition str_in (x : string) (l : list string) : bool :=
  existsb (String.eqb x) l.

(** ** The collaborators of the module

    Everything the module imports from [util], [pathutil], [os] and the
    regular expression engine, and the file system it reads. *)

Inductive re_result : Type :=
| ReMatcher (m : string -> bool)   (* the [match] method of the compiled regex *)
| ReError                          (* [re.error] *)
| ReOverflow.                      (* [OverflowError] from the engine *)

Inductive file_read : Type :=
| FileData (content : string)
| FileError (strerror : string).

Record Host : Type := {
  escape : string -> string;                          (* util.re.escape *)
  re_compile : string -> re_result;                   (* _rematcher *)
  canonpath : string -> string -> string -> res string; (* pathutil.canonpath, with its auditor *)
  normpath : string -> string;                        (* util.normpath *)
  pconvert : string -> string;                        (* util.pconvert *)
  localpath : string -> string;                       (* util.localpath *)
  dirname : string -> string;                         (* pathutil.dirname *)
  pathjoin : string -> string -> string;              (* pathutil.join and os.path.join *)
  readfile : string -> file_read                      (* util.readfile and open *)
}.

(** The changeset context a matcher may be given, as far as it is used:
    fileset evaluation here and in the subrepositories. *)
Record Ctx : Type := {
  getfileset : string -> list string;
  substate : list string;
  sub_getfileset : string -> string -> list string
}.

(** The dirstate of [icasefs] matchers *)
Record Dirstate : Type := {
  ds_normalize : string -> string;
  ds_contains : string -> bool
}.

(** A normalized pattern [(kind, pat, source)] *)
Definition kindpat : Type := string * string * string.

(** ** Pattern splitter *)

Definition known_kinds : list string :=
  ["re"; "glob"; "path"; "relglob"; "relpath"; "relre"; "listfile";
   "listfile0"; "set"; "include"; "subinclude"; "rootfilesin"].

Definition _patsplit (pattern default : string) : string * string :=
  match Py.partition ":" pattern with
  | Some (kind, pat) =>
      if str_in kind known_kinds then (kind, pat) else (default, pattern)
  | None => (default, pattern)
  end.

Definition patkind (pattern default : string) : string :=
  fst (_patsplit pattern default).

(** ** Glob translator *)

Section Glob.
Variable esc : string -> string.

(** the first index [j >= from] with [s[j] = "]"], if any *)
Fixpoint find_close (from : nat) (pos : nat) (s : string) : option nat :=
  match s with
  | EmptyString => None
  | String c s' =>
      if Nat.leb from pos && Ascii.eqb c "]" then Some pos
      else find_close from (S pos) s'
  end.

(** The [while i < n] loop of [_globre].  [pat] is [pat[i-1:]] when
    [skip] is 0; a positive [skip] counts the characters the iteration
    before has already consumed by moving [i] forward. *)
Fixpoint globre_loop (skip group : nat) (pat res : string) : string :=
  match pat with
  | EmptyString => res
  | String c rest =>
      match skip with
      | S k => globre_loop k group rest res
      | O =>
          if negb (Py.has_char c "*?[{},\") then
            globre_loop 0 group rest (res +:+ esc (String c ""))
          else if Ascii.eqb c "*" then
            if String.eqb (Py.char_at 0 rest) "*" then
              if String.eqb (Py.char_at 1 rest) "/" then
                globre_loop 2 group rest (res +:+ "(?:.*/)?")
              else
                globre_loop 1 group rest (res +:+ ".*")
            else
              globre_loop 0 group rest (res +:+ "[^/]*")
          else if Ascii.eqb c "?" then
            globre_loop 0 group rest (res +:+ ".")
          else if Ascii.eqb c "[" then
            let j0 := if str_in (Py.char_at 0 rest) ["!"; "]"] then 1 else 0 in
            match find_close j0 0 rest with
            | None => globre_loop 0 group rest (res +:+ "\[")
            | Some j =>
                let stuff := Py.replace1 "\" "\\" (Py.take j rest) in
                let stuff :=
                  if String.eqb (Py.take 1 stuff) "!" then "^" +:+ Py.drop 1 stuff
                  else if String.eqb (Py.take 1 stuff) "^" then "\" +:+ stuff
                  else stuff in
                globre_loop (S j) group rest (res +:+ "[" +:+ stuff +:+ "]")
            end
          else if Ascii.eqb c "{" then
            globre_loop 0 (S group) rest (res +:+ "(?:")
          else if Ascii.eqb c "}" && negb (Nat.eqb group 0) then
            globre_loop 0 (group - 1) rest (res +:+ ")")
          else if Ascii.eqb c "," && negb (Nat.eqb group 0) then
            globre_loop 0 group rest (res +:+ "|")
          else if Ascii.eqb c "\" then
            let p := Py.char_at 0 rest in
            if negb (String.eqb p "") then
              globre_loop 1 group rest (res +:+ esc p)
            else
              globre_loop 0 group rest (res +:+ esc (String c ""))
          else
            globre_loop 0 group rest (res +:+ esc (String c ""))
      end
  end.

Definition _globre (pat : string) : string := globre_loop 0 0 pat "".

(** ** Per-kind regex emitter *)

Definition _regex (kind pat globsuffix : string) : string :=
  if String.eqb pat "" then ""
  else if String.eqb kind "re" then pat
  else if String.eqb kind "path" then
    if String.eqb pat "." then ""
    else "^" +:+ esc pat +:+ "(?:/|$)"
  else if String.eqb kind "rootfilesin" then
    let escaped := if String.eqb pat "." then "" else esc pat +:+ "/" in
    "^" +:+ escaped +:+ "[^/]+$"
  else if String.eqb kind "relglob" then
    "(?:|.*/)" +:+ _globre pat +:+ globsuffix
  else if String.eqb kind "relpath" then
    esc pat +:+ "(?:/|$)"
  else if String.eqb kind "relre" then
    if Py.startswith pat "^" then pat else ".*" +:+ pat
  else _globre pat +:+ globsuffix.

End Glob.

(** [re.escape] of Python 2: letters and digits stay, NUL becomes [\000],
    every other character gets a backslash. *)
Definition isalnum (c : ascii) : bool :=
  let n := nat_of_ascii c in
  (Nat.leb 48 n && Nat.leb n 57) || (Nat.leb 65 n && Nat.leb n 90)
  || (Nat.leb 97 n && Nat.leb n 122).

Fixpoint py_escape (s : string) : string :=
  match s with
  | EmptyString => EmptyString
  | String c s' =>
      if isalnum c then String c (py_escape s')
      else if Ascii.eqb c "000" then "\000" +:+ py_escape s'
      else String "\" (String c (py_escape s'))
  end.

(** ** Pattern file reader *)

Definition nl : string := String "010" EmptyString.

(** the dictionary [syntaxes] of [readpatternfile], in one of the orders in
    which Python may iterate over it; [syntaxes_order_irrelevant] shows that
    the order does not matter *)
Definition syntaxes : list (string * string) :=
  [("re", "relre:"); ("regexp", "relre:"); ("glob", "relglob:");
   ("include", "include"); ("subinclude", "subinclude")].

Fixpoint assoc (k : string) (tbl : list (string * string)) : option string :=
  match tbl with
  | [] => None
  | (k', v) :: tbl' => if String.eqb k k' then Some v else assoc k tbl'
  end.

(** The comment pattern of [readpatternfile] under [search]: the end of
    its group 1 in the leftmost match.  Group 1 is the start of the line
    or one character other than a backslash, followed by pairs of
    backslashes; a [#] has to come next. *)
Fixpoint count_backslashes (s : string) : nat :=
  match s with
  | String "\" s' => S (count_backslashes s')
  | _ => 0
  end.

(** pairs of backslashes then [#] at the head of [s]: how many backslashes *)
Definition pairs_then_hash (s : string) : option nat :=
  let k := count_backslashes s in
  if Nat.even k && String.eqb (Py.char_at k s) "#" then Some k else None.

Fixpoint commentre_scan (pos : nat) (s : string) : option nat :=
  match s with
  | EmptyString => None
  | String c s' =>
      match (if Ascii.eqb c "\" then None else pairs_then_hash s') with
      | Some k => Some (pos + 1 + k)
      | None => commentre_scan (S pos) s'
      end
  end.

Definition commentre_end1 (line : string) : option nat :=
  match pairs_then_hash line with
  | Some k => Some k
  | None => commentre_scan 0 line
  end.

(** what the loop body does to a line before it looks at it: comments
    removed, escaped [#] restored, trailing white space dropped *)
Definition clean_line (line : string) : string :=
  let line :=
    if Py.has_char "#" line then
      let line := match commentre_end1 line with
                  | Some e => Py.take e line
                  | None => line
                  end in
      Py.replace2 "\" "#" "#" line
    else line in
  Py.rstrip line.

(** the loop [for s, rels in syntaxes.iteritems()] with its [break]s *)
Fixpoint linesyntax_loop (tbl : list (string * string)) (syntax line : string)
  : string * string :=
  match tbl with
  | [] => (syntax, line)
  | (s, rels) :: tbl' =>
      if Py.startswith line rels then (rels, Py.drop (String.length rels) line)
      else if Py.startswith line (s +:+ ":") then (rels, Py.drop (String.length s + 1) line)
      else linesyntax_loop tbl' syntax line
  end.

(** what one entry of [syntaxes] makes of a line, when it applies *)
Definition entry_fires (e : string * string) (line : string) : option (string * string) :=
  let '(s, rels) := e in
  if Py.startswith line rels then Some (rels, Py.drop (String.length rels) line)
  else if Py.startswith line (s +:+ ":") then Some (rels, Py.drop (String.length s + 1) line)
  else None.

(** the first entry of a table that applies to a line *)
Fixpoint first_fire (tbl : list (string * string)) (line : string)
  : option (string * string) :=
  match tbl with
  | [] => None
  | e :: tbl' =>
      match entry_fires e line with
      | Some r => Some r
      | None => first_fire tbl' line
      end
  end.

Fixpoint readpattern_loop (filepath : string) (warn : bool) (syntax : string)
    (lineno : nat) (lines : list string) : M (list (string * nat * string)) :=
  match lines with
  | [] => mret []
  | line :: rest =>
      let line := clean_line line in
      if String.eqb line "" then
        readpattern_loop filepath warn syntax (S lineno) rest
      else if Py.startswith line "syntax:" then
        let s := Py.strip (Py.drop 7 line) in
        match assoc s syntaxes with
        | Some syn => readpattern_loop filepath warn syn (S lineno) rest
        | None =>
            _ ← do_warn warn (filepath +:+ ": ignoring invalid syntax '" +:+ s +:+ "'" +:+ nl);
            readpattern_loop filepath warn syntax (S lineno) rest
        end
      else
        let '(linesyntax, line) := linesyntax_loop syntaxes syntax line in
        tl ← readpattern_loop filepath warn syntax (S lineno) rest;
        mret ((linesyntax +:+ line, lineno, line) :: tl)
  end.

Section Reader.
Variable H : Host.

(** [readpatternfile(filepath, warn, sourceinfo=True)] *)
Definition readpatternfile_sourceinfo (filepath : string) (warn : bool)
  : M (list (string * nat * string)) :=
  match readfile H filepath with
  | FileError strerror => raise (IOError strerror)
  | FileData content =>
      readpattern_loop filepath warn "relre:" 1 (Py.iterlines content)
  end.

(** [readpatternfile(filepath, warn)] *)
Definition readpatternfile (filepath : string) (warn : bool) : M (list string) :=
  l ← readpatternfile_sourceinfo filepath warn;
  mret (map (fun t => fst (fst t)) l).

(** ** Normalizer *)

(** the [try] around the reading of an include file: [Abort] gets the
    name of the file in front, [IOError] becomes a warning and nothing is
    added, anything else goes through *)
Definition try_include (pat : string) (warn : bool) (body : M (list kindpat))
  : M (list kindpat) :=
  match outcome body with
  | Ok kps =>
      MkM (Ok (map (fun kp : kindpat =>
                      let '(k, p, source) := kp in
                      (k, p, if String.eqb source "" then pat else source)) kps))
          (warnings body)
  | Raise (Abort msg) => MkM (Raise (Abort (pat +:+ ": " +:+ msg))) (warnings body)
  | Raise (IOError strerror) =>
      MkM (Ok [])
          (warnings body ++
           warnings (do_warn warn ("skipping unreadable pattern file '" +:+ pat
                                   +:+ "': " +:+ strerror +:+ nl)))
  | Raise e => MkM (Raise e) (warnings body)
  end.

(** One iteration of the loop of [_donormalize]: the patterns that it
    appends to [kindpats].  [rec] is [_donormalize] itself with the same
    [default], [root], [cwd], [auditor] and [warn]. *)
Definition normalize_pattern (rec : list string -> M (list kindpat))
    (default root cwd : string) (warn : bool) (p : string) : M (list kindpat) :=
  let '(kind, pat) := _patsplit p default in
  if str_in kind ["glob"; "relpath"] then
    pat ← lift (canonpath H root cwd pat);
    mret [(kind, pat, "")]
  else if str_in kind ["relglob"; "path"; "rootfilesin"] then
    mret [(kind, normpath H pat, "")]
  else if str_in kind ["listfile"; "listfile0"] then
    match readfile H pat with
    | FileError _ => raise (Abort ("unable to read file list (" +:+ pat +:+ ")"))
    | FileData content =>
        let files := if String.eqb kind "listfile0"
                     then Py.split "000" content
                     else Py.splitlines content in
        let files := List.filter (fun f => negb (String.eqb f "")) files in
        kps ← rec files;
        mret (map (fun kp : kindpat => let '(k, p, _) := kp in (k, p, pat)) kps)
    end
  else if String.eqb kind "include" then
    try_include pat warn
      (includepats ← readpatternfile (pathjoin H root (localpath H pat)) warn;
       rec includepats)
  else
    mret [(kind, pat, "")].

Fixpoint donormalize_loop (rec : list string -> M (list kindpat))
    (default root cwd : string) (warn : bool) (patterns : list string)
  : M (list kindpat) :=
  match patterns with
  | [] => mret []
  | p :: rest =>
      kps ← normalize_pattern rec default root cwd warn p;
      tl ← donormalize_loop rec default root cwd warn rest;
      mret (kps ++ tl)%list
  end.

(** [_donormalize]; [fuel] bounds how deep list files and include files
    may refer to further files. *)
Fixpoint _donormalize (fuel : nat) (patterns : list string)
    (default root cwd : string) (warn : bool) : M (list kindpat) :=
  donormalize_loop
    (match fuel with
     | O => fun _ => raise OutOfFuel
     | S n => fun ps => _donormalize n ps default root cwd warn
     end)
    default root cwd warn patterns.

(** the recursive calls of [_donormalize] at a given fuel *)
Definition normalize_nested (fuel : nat) (default root cwd : string) (warn : bool)
    (patterns : list string) : M (list kindpat) :=
  match fuel with
  | O => raise OutOfFuel
  | S n => _donormalize n patterns default root cwd warn
  end.

(** the [normalize] that [match] uses when [icasefs] is set *)
Definition icase_normalize (ds : Dirstate) (fuel : nat) (patterns : list string)
    (default root cwd : string) (warn : bool) : M (list kindpat) :=
  kp ← _donormalize fuel patterns default root cwd warn;
  mret (flat_map (fun t : kindpat =>
          let '(kind, pats, source) := t in
          if negb (str_in kind ["re"; "relre"]) then
            let p := pats in
            let pats := ds_normalize ds pats in
            ((if negb (String.eqb p pats) && ds_contains ds p
              then [(kind, p, source)] else [])
             ++ [(kind, pats, source)])%list
          else [(kind, pats, source)]) kp).

End Reader.

(** ** Root/dir extractor *)

(** Modelled from the spec: [util.finddirs] and [util.dirs] are not among
    the sources.  The spec speaks of "all ancestor directories of every
    root and exact dir" and of "some ancestor of d", and [_rootsanddirs]
    notes that [util.dirs] leaves the root directory out: [finddirs]
    yields the proper ancestors of a path, nearest first, without ["."];
    [dirs] is the collection of the ancestors of all the given paths, each
    of them once. *)
Fixpoint ancestors_from (pre s : string) : list string :=
  match s with
  | EmptyString => []
  | String c s' =>
      ((if Ascii.eqb c "/" then [pre] else [])
       ++ ancestors_from (pre +:+ String c "") s')%list
  end.

Definition finddirs (path : string) : list string := rev (ancestors_from "" path).

Definition dirs (paths : list string) : list string :=
  remove_dups (flat_map finddirs paths).

(** [x or '.'] *)
Definition or_dot (x : string) : string := if String.eqb x "" then "." else x.

(** the non-glob prefix of a glob, component by component *)
Fixpoint glob_root (parts : list string) : list string :=
  match parts with
  | [] => []
  | p :: ps =>
      if Py.has_char "[" p || Py.has_char "{" p || Py.has_char "*" p || Py.has_char "?" p
      then []
      else p :: glob_root ps
  end.

Fixpoint _patternrootsanddirs (kindpats : list kindpat) : list string * list string :=
  match kindpats with
  | [] => ([], [])
  | (kind, pat, source) :: rest =>
      let '(r, d) := _patternrootsanddirs rest in
      if String.eqb kind "glob" then
        (or_dot (Py.join "/" (glob_root (Py.split "/" pat))) :: r, d)
      else if str_in kind ["relpath"; "path"] then (or_dot pat :: r, d)
      else if str_in kind ["rootfilesin"] then (r, or_dot pat :: d)
      else ("." :: r, d)
  end.

Definition _roots (kindpats : list kindpat) : list string :=
  fst (_patternrootsanddirs kindpats).

Definition _rootsanddirs (kindpats : list kindpat) : list string * list string :=
  let '(r, d) := _patternrootsanddirs kindpats in
  let d := (d ++ dirs d)%list in
  let d := (d ++ dirs r)%list in
  let d := (d ++ ["."])%list in
  (r, d).

Definition _explicitfiles (kindpats : list kindpat) : list string :=
  let filable := List.filter (fun kp : kindpat =>
                                negb (str_in (fst (fst kp)) ["rootfilesin"])) kindpats in
  _roots filable.

Definition _anypats (kindpats : list kindpat) : bool :=
  existsb (fun kp : kindpat =>
             str_in (fst (fst kp)) ["glob"; "re"; "relglob"; "relre"; "set"; "rootfilesin"])
          kindpats.

Definition _kindpatsalwaysmatch (kindpats : list kindpat) : bool :=
  forallb (fun kp : kindpat =>
             let '(kind, pat, source) := kp in
             negb (negb (String.eqb pat "") || negb (str_in kind ["relpath"; "glob"])))
          kindpats.

(** ** Expansion of filesets and subincludes *)

Fixpoint _expandsets (kindpats : list kindpat) (ctx : option Ctx) (listsubrepos : bool)
  : res (gset string * list kindpat) :=
  match kindpats with
  | [] => Ok (∅, [])
  | (kind, pat, source) :: rest =>
      if String.eqb kind "set" then
        match ctx with
        | None => Raise (Abort "fileset expression with no context")
        | Some c =>
            let s : gset string := list_to_set (getfileset c pat) in
            let subs : gset string :=
              if listsubrepos then
                list_to_set (flat_map (fun subpath =>
                               map (fun f => subpath +:+ "/" +:+ f)
                                   (sub_getfileset c subpath pat))
                             (substate c))
              else ∅ in
            '(fset, other) ← _expandsets rest ctx listsubrepos;
            Ok (s ∪ subs ∪ fset, other)
        end
      else
        '(fset, other) ← _expandsets rest ctx listsubrepos;
        Ok (fset, (kind, pat, source) :: other)
  end.

(** the arguments [(root, cwd, patterns, include)] of a subinclude matcher *)
Definition matcherargs : Type := string * string * list string * list string.

Section Builder.
Variable H : Host.

(** [_expandsubinclude]: the subinclude patterns as pairs of a prefix
    and the arguments of the matcher of their file, and the other
    patterns *)
Fixpoint _expandsubinclude (kindpats : list kindpat) (root : string)
  : res (list (string * matcherargs) * list kindpat) :=
  match kindpats with
  | [] => Ok ([], [])
  | (kind, pat, source) :: rest =>
      if String.eqb kind "subinclude" then
        let sourceroot := dirname H (normpath H source) in
        let pat := pconvert H pat in
        let path := pathjoin H sourceroot pat in
        let newroot := dirname H path in
        let args : matcherargs := (newroot, "", [], ["include:" +:+ path]) in
        prefix ← canonpath H root root newroot;
        let prefix := if String.eqb prefix "" then prefix else prefix +:+ "/" in
        '(relmatchers, other) ← _expandsubinclude rest root;
        Ok ((prefix, args) :: relmatchers, other)
      else
        '(relmatchers, other) ← _expandsubinclude rest root;
        Ok (relmatchers, (kind, pat, source) :: other)
  end.

(** ** Matcher builder *)

(** the composed regular expression of a pattern list *)
Definition compose_regex (kindpats : list kindpat) (globsuffix : string) : string :=
  "(?:" +:+ Py.join "|" (map (fun kp : kindpat =>
                                let '(k, p, s) := kp in _regex (escape H) k p globsuffix)
                             kindpats) +:+ ")".

(** the [try] block of [_buildregexmatch] *)
Inductive attempt : Type :=
| Compiled (m : string -> bool)
| Overflowed                      (* [OverflowError], raised here or by the engine *)
| Rejected.                       (* [re.error] *)

Definition try_compile (regex : string) : attempt :=
  if (20000 <? Z.of_nat (String.length regex))%Z then Overflowed
  else match re_compile H regex with
       | ReMatcher m => Compiled m
       | ReOverflow => Overflowed
       | ReError => Rejected
       end.

(** the handler of [re.error]: the first pattern that does not compile
    on its own is reported *)
Fixpoint report_invalid (kindpats : list kindpat) (globsuffix : string) : exn :=
  match kindpats with
  | [] => Abort "invalid pattern"
  | (k, p, s) :: rest =>
      match re_compile H ("(?:" +:+ _regex (escape H) k p globsuffix +:+ ")") with
      | ReMatcher _ => report_invalid rest globsuffix
      | ReOverflow => OverflowError
      | ReError =>
          if negb (String.eqb s "")
          then Abort (s +:+ ": invalid pattern (" +:+ k +:+ "): " +:+ p)
          else Abort ("invalid pattern (" +:+ k +:+ "): " +:+ p)
      end
  end.

Equations? _buildregexmatch (kindpats : list kindpat) (globsuffix : string)
  : res (string * (string -> bool)) by wf (length kindpats) lt :=
_buildregexmatch kindpats globsuffix
  with try_compile (compose_regex kindpats globsuffix) := {
  | Compiled m => Ok (compose_regex kindpats globsuffix, m)
  | Rejected => Raise (report_invalid kindpats globsuffix)
  | Overflowed with le_lt_dec 2 (length kindpats) := {
    | right _ => Raise OverflowError
    | left _ =>
        '(regexa, a) ← _buildregexmatch (take (length kindpats / 2) kindpats) globsuffix;
        '(regexb, b) ← _buildregexmatch (drop (length kindpats / 2) kindpats) globsuffix;
        Ok (compose_regex kindpats globsuffix, fun s => a s || b s) } }.
Proof.
  all: change (Nat.divmod (length kindpats) 1 0 1).1 with (length kindpats / 2).
  all: pose proof (Nat.div_lt (length kindpats) 2);
       pose proof (Nat.div_str_pos (length kindpats) 2);
       rewrite ?length_take, ?length_drop; lia.
Qed.

(** [any(mf(f) for mf in matchfuncs)] *)
Fixpoint any_match (matchfuncs : list (string -> res bool)) (f : string) : res bool :=
  match matchfuncs with
  | [] => Ok false
  | mf :: rest => b ← mf f; if b : bool then Ok true else any_match rest f
  end.

(** The matcher a prefix gets in the dictionary [submatchers]: the one of
    the first subinclude with that prefix, which is the one that fills
    the entry. *)
Fixpoint submatcher_args (subincludes : list (string * matcherargs)) (prefix : string)
    (own : matcherargs) : matcherargs :=
  match subincludes with
  | [] => own
  | (p, args) :: rest =>
      if String.eqb p prefix then args else submatcher_args rest prefix own
  end.

Section Subinclude.
(** building the matcher of a subinclude file from its [matcherargs]
    and calling it on [f] *)
Variable submatch : matcherargs -> string -> res bool.

Fixpoint matchsubinclude_loop (subincludes todo : list (string * matcherargs))
    (f : string) : res bool :=
  match todo with
  | [] => Ok false
  | (prefix, args) :: rest =>
      if Py.startswith f prefix then
        b ← submatch (submatcher_args subincludes prefix args)
                     (Py.drop (String.length prefix) f);
        if b : bool then Ok true else matchsubinclude_loop subincludes rest f
      else matchsubinclude_loop subincludes rest f
  end.

Definition matchsubinclude (subincludes : list (string * matcherargs)) (f : string)
  : res bool :=
  matchsubinclude_loop subincludes subincludes f.

Definition _buildmatch (ctx : option Ctx) (kindpats : list kindpat)
    (globsuffix : string) (listsubrepos : bool) (root : string)
  : res (string * (string -> res bool)) :=
  '(subincludes, kindpats) ← _expandsubinclude kindpats root;
  let mfs1 := match subincludes with
              | [] => []
              | _ => [matchsubinclude subincludes]
              end in
  '(fset, kindpats) ← _expandsets kindpats ctx listsubrepos;
  let mfs2 := if bool_decide (fset ≠ ∅)
              then [fun f => Ok (bool_decide (f ∈ fset))] else [] in
  '(regex, mfs3) ←
    match kindpats with
    | [] => Ok ("", [])
    | _ => '(regex, mf) ← _buildregexmatch kindpats globsuffix;
           Ok (regex, [fun f => Ok (mf f)])
    end;
  let matchfuncs := (mfs1 ++ mfs2 ++ mfs3)%list in
  match matchfuncs with
  | [mf] => Ok (regex, mf)
  | _ => Ok (regex, any_match matchfuncs)
  end.
End Subinclude.

End Builder.

(** ** Matcher object *)

(** The functions collected in [matchfns].  [self.exact] is kept apart from
    the closures because [isexact] compares [matchfn] with it. *)
Inductive matchfunc : Type :=
| ExactFn                            (* self.exact *)
| Fn (f : string -> res bool).       (* im, lambda f: not em(f), pm *)

(** [self.matchfn]: [util.always], the only element of [matchfns], or the
    closure [m] that asks all of them *)
Inductive matchfn_t : Type :=
| AlwaysFn
| OneFn (m : matchfunc)
| AllFn (ms : list matchfunc).

Record matcher_obj : Type := {
  o_root : string;                   (* self._root *)
  o_cwd : string;                    (* self._cwd *)
  o_files : list string;             (* self._files *)
  o_anypats : bool;                  (* self._anypats *)
  o_always : bool;                   (* self._always *)
  o_pathrestricted : bool;           (* self._pathrestricted *)
  o_includeroots : gset string;      (* self._includeroots *)
  o_excluderoots : gset string;      (* self._excluderoots *)
  o_includedirs : gset string;       (* self._includedirs *)
  o_includepat : option string;      (* self.includepat, when set *)
  o_excludepat : option string;      (* self.excludepat, when set *)
  o_patternspat : option string;     (* self.patternspat, when set *)
  o_matchfn : matchfn_t              (* self.matchfn *)
}.

(** A matcher is an instance of [matcher] or of its subclass
    [subdirmatcher], which keeps the matcher it adapts. *)
Inductive matcher : Type :=
| Matcher (o : matcher_obj)
| Subdirmatcher (path : string) (parent : matcher)
    (sub_always : bool) (sub_files : list string) (sub_anypats : bool).

Inductive visit : Type := VFalse | VTrue | VAll.

Definition visit_of_bool (b : bool) : visit := if b then VTrue else VFalse.

(** [bool(l)] for a list *)
Definition nonempty {A : Type} (l : list A) : bool :=
  match l with [] => false | _ => true end.

(** [files()] *)
Definition files (m : matcher) : list string :=
  match m with
  | Matcher o => o_files o
  | Subdirmatcher _ _ _ fs _ => fs
  end.

(** [_fileset] *)
Definition _fileset (m : matcher) : gset string := list_to_set (files m).

(** [_dirs] *)
Definition _dirs (m : matcher) : gset string :=
  list_to_set (dirs (elements (_fileset m))) ∪ {["."]}.

(** [exact(f)] *)
Definition exact (m : matcher) (f : string) : bool := bool_decide (f ∈ _fileset m).

(** [anypats()] *)
Definition anypats (m : matcher) : bool :=
  match m with
  | Matcher o => o_anypats o
  | Subdirmatcher _ _ _ _ a => a
  end.

(** [always()] *)
Definition always (m : matcher) : bool :=
  match m with
  | Matcher o => o_always o
  | Subdirmatcher _ _ a _ _ => a
  end.

(** [isexact()]: [self.matchfn == self.exact].  The [matchfn] of a
    subdirectory matcher is a lambda of its own. *)
Definition isexact (m : matcher) : bool :=
  match m with
  | Matcher o => match o_matchfn o with OneFn ExactFn => true | _ => false end
  | Subdirmatcher _ _ _ _ _ => false
  end.

(** [prefix()] *)
Definition prefix (m : matcher) : bool :=
  negb (always m) && negb (isexact m) && negb (anypats m).

Definition call_matchfunc (fileset : gset string) (mf : matchfunc) (f : string) : res bool :=
  match mf with
  | ExactFn => Ok (bool_decide (f ∈ fileset))
  | Fn g => g f
  end.

(** the closure [m] of [__init__]: the first function that says no decides *)
Fixpoint all_match (fileset : gset string) (matchfns : list matchfunc) (f : string)
  : res bool :=
  match matchfns with
  | [] => Ok true
  | mf :: rest =>
      b ← call_matchfunc fileset mf f;
      if b : bool then all_match fileset rest f else Ok false
  end.

(** [matchfn(f)] *)
Fixpoint matchfn (m : matcher) (f : string) : res bool :=
  match m with
  | Matcher o =>
      match o_matchfn o with
      | AlwaysFn => Ok true
      | OneFn mf => call_matchfunc (_fileset m) mf f
      | AllFn ms => all_match (_fileset m) ms f
      end
  | Subdirmatcher path parent _ _ _ => matchfn parent (path +:+ "/" +:+ f)
  end.

(** [m(fn)], the [matches] of the spec *)
Definition matches (m : matcher) (fn : string) : res bool := matchfn m fn.

(** [matcher.visitdir] *)
Definition matcher_visitdir (m : matcher) (o : matcher_obj) (dir : string) : visit :=
  if prefix m && bool_decide (dir ∈ _fileset m) then VAll
  else if bool_decide (dir ∈ o_excluderoots o) then VFalse
  else if (bool_decide (o_includeroots o ≠ ∅) || bool_decide (o_includedirs o ≠ ∅))
          && negb (bool_decide ("." ∈ o_includeroots o))
          && negb (bool_decide (dir ∈ o_includeroots o))
          && negb (bool_decide (dir ∈ o_includedirs o))
          && negb (existsb (fun parent => bool_decide (parent ∈ o_includeroots o))
                           (finddirs dir))
  then VFalse
  else visit_of_bool
         (negb (bool_decide (_fileset m ≠ ∅))
          || bool_decide ("." ∈ _fileset m)
          || bool_decide (dir ∈ _fileset m)
          || bool_decide (dir ∈ _dirs m)
          || existsb (fun parentdir => bool_decide (parentdir ∈ _fileset m))
                     (finddirs dir)).

(** [visitdir(dir)], with the override of [subdirmatcher] *)
Fixpoint visitdir (m : matcher) (dir : string) : visit :=
  match m with
  | Matcher o => matcher_visitdir m o dir
  | Subdirmatcher path parent _ _ _ =>
      let dir := if String.eqb dir "." then path else path +:+ "/" +:+ dir in
      visitdir parent dir
  end.

(** [subdirmatcher(path, matcher)] *)
Definition subdirmatcher (path : string) (m : matcher) : matcher :=
  let always0 := always m in
  let fs := map (fun f => Py.drop (String.length path + 1) f)
                (List.filter (fun f => Py.startswith f (path +:+ "/")) (files m)) in
  let always1 := if prefix m then existsb (fun f => String.eqb f path) (files m)
                 else always0 in
  Subdirmatcher path m always1 fs (anypats m).

Section Match.
Variable H : Host.

(** [matcher.__init__]; [normalize] already has [root], [cwd], [auditor]
    and [warn], and [submatch] builds and calls the matcher of a
    subinclude file. *)
Definition matcher_init (normalize : list string -> string -> M (list kindpat))
    (submatch : matcherargs -> string -> res bool)
    (root cwd : string) (patterns include exclude : list string)
    (default : string) (exact : bool) (ctx : option Ctx) (listsubrepos : bool)
  : M matcher_obj :=
  let anypats0 := nonempty include || nonempty exclude in
  '(includepat, includeroots, includedirs, fns1) ←
    (if nonempty include then
       kindpats ← normalize include "glob";
       '(pat, im) ← lift (_buildmatch H submatch ctx kindpats "(?:/|$)" listsubrepos root);
       let '(roots, ds) := _rootsanddirs kindpats in
       mret (Some pat, list_to_set roots : gset string, list_to_set ds : gset string,
             [Fn im])
     else mret (None, ∅, ∅, []));
  '(excludepat, excluderoots, fns2) ←
    (if nonempty exclude then
       kindpats ← normalize exclude "glob";
       '(pat, em) ← lift (_buildmatch H submatch ctx kindpats "(?:/|$)" listsubrepos root);
       let excluderoots : gset string :=
         if negb (_anypats kindpats) then list_to_set (_roots kindpats) else ∅ in
       mret (Some pat, excluderoots, [Fn (fun f => negb <$> em f)])
     else mret (None, ∅, []));
  '(patternspat, fs, anypats1, fns3) ←
    (if exact then mret (None, patterns, anypats0, [ExactFn])
     else if nonempty patterns then
       kindpats ← normalize patterns default;
       if negb (_kindpatsalwaysmatch kindpats) then
         '(pat, pm) ← lift (_buildmatch H submatch ctx kindpats "$" listsubrepos root);
         mret (Some pat, _explicitfiles kindpats, anypats0 || _anypats kindpats, [Fn pm])
       else mret (None, [], anypats0, [])
     else mret (None, [], anypats0, []));
  let matchfns := (fns1 ++ fns2 ++ fns3)%list in
  mret {| o_root := root;
          o_cwd := cwd;
          o_files := fs;
          o_anypats := anypats1;
          o_always := negb (nonempty matchfns);
          o_pathrestricted := nonempty include || nonempty exclude || nonempty patterns;
          o_includeroots := includeroots;
          o_excluderoots := excluderoots;
          o_includedirs := includedirs;
          o_includepat := includepat;
          o_excludepat := excludepat;
          o_patternspat := patternspat;
          o_matchfn := match matchfns with
                       | [] => AlwaysFn
                       | [mf] => OneFn mf
                       | _ => AllFn matchfns
                       end |}.

(** [match(root, cwd, patterns, include, exclude, default, exact,
    auditor, ctx, listsubrepos, warn, badfn, icasefs)].  The auditor is
    part of [canonpath]; [icasefs] comes with the dirstate it reads from
    [ctx]; [badfn] only replaces the callback [bad].  [fuel] bounds the
    nesting of list, include and subinclude files. *)
Fixpoint match_ (fuel : nat) (root cwd : string) (patterns include exclude : list string)
    (default : string) (exact : bool) (ctx : option Ctx) (listsubrepos : bool)
    (warn : bool) (icasefs : option Dirstate) : M matcher :=
  let normalize := fun pats dflt =>
    match icasefs with
    | None => _donormalize H fuel pats dflt root cwd warn
    | Some ds => icase_normalize H ds fuel pats dflt root cwd warn
    end in
  let submatch := fun (args : matcherargs) (f : string) =>
    match fuel with
    | O => Raise OutOfFuel
    | S n =>
        let '(r, c, pats, incl) := args in
        m ← outcome (match_ n r c pats incl [] "glob" false None false false None);
        matches m f
    end in
  o ← matcher_init normalize submatch root cwd patterns include exclude
                   default exact ctx listsubrepos;
  mret (Matcher o).

(** [exact(root, cwd, files)] *)
Definition match_exact (fuel : nat) (root cwd : string) (fs : list string) : M matcher :=
  match_ fuel root cwd fs [] [] "glob" true None false false None.

(** [always(root, cwd)] *)
Definition match_always (fuel : nat) (root cwd : string) : M matcher :=
  match_ fuel root cwd [] [] [] "glob" false None false false None.

End Match.

(** ** A reference host

    The collaborators, made concrete for evaluating the matcher on given
    inputs: Python 2's [re.escape], a backtracking engine for the part of
    the regular expression syntax that the emitter produces, POSIX path
    functions for names without [.], [..] or doubled slashes and a working
    directory at the root of the repository, and a file system given as a
    list of files. *)

Module Ref.

Inductive rx : Type :=
| REmpty
| RChar (c : ascii)
| RAny                                   (* [.]: any character but LF *)
| RClass (neg : bool) (items : list (ascii * ascii))
| RBol                                   (* [^] *)
| REol                                   (* [$] *)
| RSeq (a b : rx)
| RAlt (a b : rx)
| RStar (a : rx)
| ROpt (a : rx).

Definition in_range (c : ascii) (item : ascii * ascii) : bool :=
  Nat.leb (nat_of_ascii (fst item)) (nat_of_ascii c)
  && Nat.leb (nat_of_ascii c) (nat_of_ascii (snd item)).

(** [run r bol s k]: [r] matches a prefix of [s] and [k] accepts what is
    left; [bol] tells whether [s] is still the whole subject. *)
Fixpoint run (r : rx) (bol : bool) (s : string) (k : bool -> string -> bool) : bool :=
  match r with
  | REmpty => k bol s
  | RChar c =>
      match s with
      | String d s' => Ascii.eqb c d && k false s'
      | EmptyString => false
      end
  | RAny =>
      match s with
      | String d s' => negb (Ascii.eqb d "010") && k false s'
      | EmptyString => false
      end
  | RClass neg items =>
      match s with
      | String d s' => xorb neg (existsb (in_range d) items) && k false s'
      | EmptyString => false
      end
  | RBol => bol && k bol s
  | REol => (String.eqb s "" || String.eqb s nl) && k bol s
  | RSeq a b => run a bol s (fun bol' s' => run b bol' s' k)
  | RAlt a b => run a bol s k || run b bol s k
  | RStar a =>
      (fix loop (n : nat) (bol : bool) (s : string) : bool :=
         k bol s ||
         match n with
         | O => false
         | S n' =>
             run a bol s (fun bol' s' =>
               Nat.ltb (String.length s') (String.length s) && loop n' bol' s')
         end) (String.length s) bol s
  | ROpt a => run a bol s k || k bol s
  end.

(** [re.match]: a match that starts at the beginning of the subject *)
Definition rx_match (r : rx) (s : string) : bool := run r true s (fun _ _ => true).

(** one literal of a character class: a character, or a backslash and a
    character that is not a letter or a digit *)
Definition class_literal (s : string) : option (ascii * string) :=
  match s with
  | String "\" (String d s') => if isalnum d then None else Some (d, s')
  | String "\" EmptyString => None
  | String c s' => Some (c, s')
  | EmptyString => None
  end.

(** the items of a character class, up to its closing bracket *)
Fixpoint parse_class (fuel : nat) (first : bool) (s : string)
  : option (list (ascii * ascii) * string) :=
  match fuel with
  | O => None
  | S n =>
      match s with
      | String "]" s' =>
          if first then
            '(items, r) ← parse_class n false s'; Some (("]"%char, "]"%char) :: items, r)
          else Some ([], s')
      | _ =>
          '(lo, rest) ← class_literal s;
          match rest with
          | String "-" (String "]" _) =>
              '(items, r) ← parse_class n false rest; Some ((lo, lo) :: items, r)
          | String "-" rest' =>
              '(hi, rest'') ← class_literal rest';
              '(items, r) ← parse_class n false rest''; Some ((lo, hi) :: items, r)
          | _ =>
              '(items, r) ← parse_class n false rest; Some ((lo, lo) :: items, r)
          end
      end
  end.

Section Atoms.
(** the parser of a whole alternation, for the inside of a group *)
Variable parse_group : string -> option (rx * string).

Definition parse_atom (s : string) : option (rx * string) :=
  match s with
  | EmptyString => None
  | String "(" s' =>
      let body := if Py.startswith s' "?:" then Some (Py.drop 2 s')
                  else if Py.startswith s' "?" then None
                  else Some s' in
      body ← body;
      '(r, rest) ← parse_group body;
      match rest with
      | String ")" rest' => Some (r, rest')
      | _ => None
      end
  | String "[" (String "^" s') =>
      '(items, rest) ← parse_class (String.length s') true s';
      Some (RClass true items, rest)
  | String "[" s' =>
      '(items, rest) ← parse_class (String.length s') true s';
      Some (RClass false items, rest)
  | String "." s' => Some (RAny, s')
  | String "^" s' => Some (RBol, s')
  | String "$" s' => Some (REol, s')
  | String "\" (String d s') => if isalnum d then None else Some (RChar d, s')
  | String "\" EmptyString => None
  | String c s' =>
      if Py.has_char c "*+?{}" then None else Some (RChar c, s')
  end.

(** a repetition mark after an atom; a [?] after it only makes it lazy *)
Definition parse_postfix (r : rx) (s : string) : option (rx * string) :=
  let lazy (r' : rx) (rest : string) : option (rx * string) :=
    match rest with
    | String "?" rest' =>
        if Py.has_char (match rest' with String c _ => c | _ => " "%char end) "*+?"
        then None else Some (r', rest')
    | String "*" _ => None
    | String "+" _ => None
    | _ => Some (r', rest)
    end in
  match s with
  | String "*" rest => lazy (RStar r) rest
  | String "+" rest => lazy (RSeq r (RStar r)) rest
  | String "?" rest => lazy (ROpt r) rest
  | _ => Some (r, s)
  end.

Fixpoint parse_seq (fuel : nat) (acc : rx) (s : string) : option (rx * string) :=
  match s with
  | EmptyString => Some (acc, s)
  | String "|" _ => Some (acc, s)
  | String ")" _ => Some (acc, s)
  | _ =>
      match fuel with
      | O => None
      | S n =>
          '(a, rest) ← parse_atom s;
          '(a, rest) ← parse_postfix a rest;
          parse_seq n (RSeq acc a) rest
      end
  end.
End Atoms.

Fixpoint parse_alt (fuel : nat) (s : string) : option (rx * string) :=
  match fuel with
  | O => None
  | S n =>
      '(r, rest) ← parse_seq (parse_alt n) (String.length s) REmpty s;
      match rest with
      | String "|" rest' => '(r2, rest'') ← parse_alt n rest'; Some (RAlt r r2, rest'')
      | _ => Some (r, rest)
      end
  end.

(** [util.re.compile(regex).match]; what the parser does not read is
    reported as [re.error] *)
Definition compile (regex : string) : re_result :=
  match parse_alt (S (String.length regex)) regex with
  | Some (r, EmptyString) => ReMatcher (rx_match r)
  | _ => ReError
  end.

(** an engine that gives up on expressions longer than [limit]
    characters, the "tiny regex engine" of [_buildregexmatch] *)
Definition tiny_compile (limit : nat) (regex : string) : re_result :=
  if Nat.ltb limit (String.length regex) then ReOverflow else compile regex.

(** ** Paths and files *)

Definition posix_canonpath (root cwd name : string) : res string :=
  if Py.startswith name "/" || str_in ".." (Py.split "/" name)
  then Raise (Abort (name +:+ " not under root '" +:+ root +:+ "'"))
  else Ok (if String.eqb name "." then "" else name).

Definition posix_normpath (p : string) : string := if String.eqb p "" then "." else p.

Definition posix_dirname (p : string) : string :=
  match finddirs p with
  | d :: _ => if String.eqb d "" then "/" else d
  | [] => ""
  end.

Definition posix_join (a b : string) : string :=
  if Py.startswith b "/" then b
  else if String.eqb a "" then b
  else if String.eqb (Py.drop (String.length a - 1) a) "/" then a +:+ b
  else a +:+ "/" +:+ b.

Fixpoint lookup_file (fs : list (string * string)) (path : string) : file_read :=
  match fs with
  | [] => FileError "No such file or directory"
  | (p, content) :: fs' => if String.eqb p path then FileData content else lookup_file fs' path
  end.

(** the host of a repository whose files are [fs], around a given engine *)
Definition host_with (engine : string -> re_result) (fs : list (string * string)) : Host :=
  {| escape := py_escape;
     re_compile := engine;
     canonpath := posix_canonpath;
     normpath := posix_normpath;
     pconvert := fun p => p;
     localpath := fun p => p;
     dirname := posix_dirname;
     pathjoin := posix_join;
     readfile := lookup_file fs |}.

Definition host (fs : list (string * string)) : Host := host_with compile fs.

(** what a regular expression matches according to the reference
    engine, whatever its length *)
Definition denote (regex s : string) : bool :=
  match compile regex with
  | ReMatcher m => m s
  | _ => false
  end.

(** a host whose engine overflows beyond 24 characters *)
Definition tiny_host : Host := host_with (tiny_compile 24) [].

End Ref.

(** [l[i:k]] *)
Definition window {A : Type} (i k : nat) (l : list A) : list A := take (k - i) (drop i l).

(** [c * n] *)
Fixpoint repeat_char (c : ascii) (n : nat) : string :=
  match n with
  | O => EmptyString
  | S n' => String c (repeat_char c n')
  end.

(** ** Inputs of the examples *)


Definition two_kindpats : list kindpat := [("path", "src", ""); ("relglob", "*.c", "")].


(** ** Further definitions *)

(** the escape function of the host, applied to each character *)
Fixpoint escape_each (esc : string → string) (s : string) : string :=
  match s with
  | EmptyString => EmptyString
  | String c s' => esc (String c "") +:+ escape_each esc s'
  end.

(** the characters that [_globre] does not copy *)
Definition glob_special : string := "*?[{},\".

(** all the characters of a string satisfy [P] *)
Fixpoint all_chars (P : ascii → bool) (s : string) : bool :=
  match s with
  | EmptyString => true
  | String c s' => P c && all_chars P s'
  end.

(** what [readpatternfile] puts in front of a line *)
Definition pattern_prefixes : list string := ["relre:"; "relglob:"; "include"; "subinclude"].

(** neither [#] nor a backslash *)
Definition plain_char (c : ascii) : bool := negb (Ascii.eqb c "#") && negb (Ascii.eqb c "\").

(** the kind of a pattern *)
Definition kind_of (kp : kindpat) : string := kp.1.1.

(** the files that a fileset expression stands for in [_expandsets] *)
Definition fileset_files (c : Ctx) (listsubrepos : bool) (pat : string) : list string :=
  (getfileset c pat
   ++ (if listsubrepos
       then flat_map (fun subpath => map (fun f => subpath +:+ "/" +:+ f)
                                         (sub_getfileset c subpath pat))
                     (substate c)
       else []))%list.

(** the file that a subinclude pattern names, relative to the file that
    holds the pattern *)
Definition subinclude_path (H : Host) (pat source : string) : string :=
  pathjoin H (dirname H (normpath H source)) (pconvert H pat).

(** a kind that [_donormalize] leaves in its result *)
Definition normalized_kind (default : string) (kp : kindpat) : Prop :=
  ¬ In (kind_of kp) ["listfile"; "listfile0"; "include"]
  ∧ (In (kind_of kp) known_kinds ∨ kind_of kp = default).

(** a list file and a pattern file of a repository at [/r] *)
Definition listed_files : list (string * string) :=
  [("files", "src/a.c" +:+ nl +:+ "re:x.*" +:+ nl);
   ("/r/ignore", "syntax: glob" +:+ nl +:+ "*.o" +:+ nl)].

(** a dirstate that knows [README] and folds names to upper case *)
Definition upper_dirstate : Dirstate :=
  {| ds_normalize := fun p => if String.eqb p "readme" then "README" else p;
     ds_contains := fun p => String.eqb p "README" |}.

(** the message of the [Abort] that names a pattern which does not compile *)
Definition invalid_pattern_message (k p s : string) : string :=
  if negb (String.eqb s "")
  then s +:+ ": invalid pattern (" +:+ k +:+ "): " +:+ p
  else "invalid pattern (" +:+ k +:+ "): " +:+ p.


(** the regular expression of one pattern on its own, as the handler of
    [re.error] compiles it *)
Definition alone_regex (H : Host) (globsuffix : string) (kp : kindpat) : string :=
  let '(k, p, s) := kp in "(?:" +:+ _regex (escape H) k p globsuffix +:+ ")".








(** a regular expression that closes the group it is put in and opens
    another one, and a list that is split because of its length *)
Definition open_pattern : string := repeat_char "a" (Z.to_nat 19992) +:+ ")(?:".

Definition open_kindpats : list kindpat := [("re", open_pattern, ""); ("re", "b", "")].


(** what [_donormalize] makes of a pattern that names no file of patterns *)
Definition normalized_as (H : Host) (default root cwd : string) (p : string)
    (kp : kindpat) : Prop :=
  let '(kind, pat) := _patsplit p default in
  ∃ pat', kp = (kind, pat', "")
          ∧ if str_in kind ["glob"; "relpath"] then canonpath H root cwd pat = Ok pat'
            else if str_in kind ["relglob"; "path"; "rootfilesin"] then pat' = normpath H pat
            else pat' = pat.

(** * Properties *)

Local Open Scope nat_scope.

(** ** The doctests of the module *)

Example globre_doc1 : _globre py_escape "?" = ".".
Proof. reflexivity. Qed.
Example globre_doc2 : _globre py_escape "*" = "[^/]*".
Proof. reflexivity. Qed.
Example globre_doc3 : _globre py_escape "**" = ".*".
Proof. reflexivity. Qed.
Example globre_doc4 : _globre py_escape "**/a" = "(?:.*/)?a".
Proof. reflexivity. Qed.
Example globre_doc5 : _globre py_escape "a/**/b" = "a\/(?:.*/)?b".
Proof. reflexivity. Qed.
Example globre_doc6 : _globre py_escape "[a*?!^][^b][!c]" = "[a*?!^][\^b][^c]".
Proof. reflexivity. Qed.
Example globre_doc7 : _globre py_escape "{a,b}" = "(?:a|b)".
Proof. reflexivity. Qed.
Example globre_doc8 : _globre py_escape ".\*\?" = "\.\*\?".
Proof. reflexivity. Qed.


Example rootsanddirs_doc1 :
  _rootsanddirs [("glob", "g/h/*", ""); ("glob", "g/h", ""); ("glob", "g*", "")]
  = (["g/h"; "g/h"; "."], ["g"; "."]).
Proof. reflexivity. Qed.
Example rootsanddirs_doc2 :
  _rootsanddirs [("rootfilesin", "g/h", ""); ("rootfilesin", "", "")]
  = ([], ["g/h"; "."; "g"; "."]).
Proof. reflexivity. Qed.
Example rootsanddirs_doc3 :
  _rootsanddirs [("relpath", "r", ""); ("path", "p/p", ""); ("path", "", "")]
  = (["r"; "p/p"; "."], ["p"; "."]).
Proof. reflexivity. Qed.
Example rootsanddirs_doc4 :
  _rootsanddirs [("relglob", "rg*", ""); ("re", "re/", ""); ("relre", "rr", "")]
  = (["."; "."; "."], ["."]).
Proof. reflexivity. Qed.
Example explicitfiles_doc1 : _explicitfiles [("path", "foo/bar", "")] = ["foo/bar"].
Proof. reflexivity. Qed.
Example explicitfiles_doc2 : _explicitfiles [("rootfilesin", "foo/bar", "")] = [].
Proof. reflexivity. Qed.

(** ** Unfolding and inversion of the monadic code *)

Lemma match_unfold H fuel root cwd patterns include exclude default exact_ ctx
    listsubrepos warn icasefs :
  match_ H fuel root cwd patterns include exclude default exact_ ctx listsubrepos
         warn icasefs
  = (o ← matcher_init H
          (fun pats dflt =>
             match icasefs with
             | None => _donormalize H fuel pats dflt root cwd warn
             | Some ds => icase_normalize H ds fuel pats dflt root cwd warn
             end)
          (fun (args : matcherargs) (f : string) =>
             match fuel with
             | O => Raise OutOfFuel
             | S n =>
                 let '(r, c, pats, incl) := args in
                 m ← outcome (match_ H n r c pats incl [] "glob" false None false
                                     false None);
                 matches m f
             end)
          root cwd patterns include exclude default exact_ ctx listsubrepos;
     mret (Matcher o)).
Proof. destruct fuel; reflexivity. Qed.

Lemma donormalize_unfold H fuel patterns default root cwd warn :
  _donormalize H fuel patterns default root cwd warn
  = donormalize_loop H (normalize_nested H fuel default root cwd warn)
      default root cwd warn patterns.
Proof. destruct fuel; reflexivity. Qed.

Lemma bind_Ok {A B : Type} (c : M A) (k : A → M B) (v : B) :
  outcome (c ≫= k) = Ok v → ∃ x, outcome c = Ok x ∧ outcome (k x) = Ok v.
Proof.
  unfold mbind, M_bind. destruct (outcome c) as [x|e] eqn:Hc; simpl; [|discriminate].
  intros Hk. exists x. split; [reflexivity | exact Hk].
Qed.

Lemma ret_Ok {A : Type} (x v : A) : outcome (mret x : M A) = Ok v → x = v.
Proof. intros Hx. injection Hx as Hx. exact Hx. Qed.

(** take a successful run of monadic code apart, step by step *)
Ltac inv_M :=
  repeat match goal with
  | Hb : outcome (_ ≫= _) = Ok _ |- _ =>
      let x := fresh "x" in let Hx := fresh "Hx" in
      apply bind_Ok in Hb as (x & Hx & Hb)
  | Hb : outcome (M_bind _ _ ?k ?c) = Ok _ |- _ =>
      let x := fresh "x" in let Hx := fresh "Hx" in
      apply (bind_Ok c k) in Hb as (x & Hx & Hb)
  | Hb : outcome (mret _) = Ok _ |- _ => apply ret_Ok in Hb
  | Hb : outcome (M_ret _ _) = Ok _ |- _ => apply ret_Ok in Hb
  | Hb : outcome (let '(_, _) := ?p in _) = Ok _ |- _ => destruct p
  | Hb : outcome (if ?b then _ else _) = Ok _ |- _ => destruct b eqn:?
  end.

(** decide the set memberships of [visitdir] when the sets are known *)
Ltac visit_sets :=
  unfold matcher_visitdir, prefix, _fileset, _dirs; simpl;
  repeat case_bool_decide; try set_solver.

(** ** Subdirectory matcher *)

(** C7: the subdirectory matcher of [M] under [P] matches [f] exactly when
    [M] matches [P/f], and its [visitdir(d)] is [M.visitdir(P/d)], where
    [d = "."] stands for [P] itself. *)
Theorem subdirmatcher_delegates (M : matcher) (P f d : string) :
  matches (subdirmatcher P M) f = matches M (P +:+ "/" +:+ f)
  ∧ visitdir (subdirmatcher P M) d
    = visitdir M (if String.eqb d "." then P else P +:+ "/" +:+ d).
Proof. split; reflexivity. Qed.

(** ** Exact matchers *)

(** C5, as amended: a matcher built in exact mode with files [a] and [b/c],
    on any host, matches exactly the paths [a] and [b/c] (not [b/d]), and
    [visitdir("b")] and [visitdir("b/c")] are both [True]: an exact matcher
    is not a prefix matcher, so it never answers ['all']. *)
Theorem exact_scenario (H : Host) (fuel : nat) :
  ∃ m, outcome (match_exact H fuel "/r" "/r" ["a"; "b/c"]) = Ok m
       ∧ (∀ p, matches m p = Ok true ↔ p = "a" ∨ p = "b/c")
       ∧ matches m "b/d" = Ok false
       ∧ visitdir m "b" = VTrue
       ∧ visitdir m "b/c" = VTrue.
Proof.
  eexists. split.
  { unfold match_exact. rewrite match_unfold. reflexivity. }
  split; [| split; [| split]]; try (vm_compute; reflexivity).
  intros p. unfold matches, matchfn, call_matchfunc, _fileset; simpl.
  assert (Hin : p ∈ (list_to_set ["a"; "b/c"] : gset string) ↔ p = "a" ∨ p = "b/c").
  { rewrite elem_of_list_to_set, !elem_of_cons, elem_of_nil. tauto. }
  rewrite <- Hin. split.
  - intros Hp. injection Hp as Hp. apply bool_decide_eq_true in Hp. exact Hp.
  - intros Hp. f_equal. apply bool_decide_eq_true. exact Hp.
Qed.

(** C5, as stated, fails: [visitdir("b/c")] is not ['all']. *)
Lemma exact_scenario_visit_not_all :
  ¬ (∀ m, outcome (match_exact (Ref.host []) 0 "/r" "/r" ["a"; "b/c"]) = Ok m →
          matches m "a" = Ok true ∧ matches m "b/c" = Ok true
          ∧ matches m "b/d" = Ok false
          ∧ visitdir m "b" = VTrue ∧ visitdir m "b/c" = VAll).
Proof.
  intros Hc. specialize (Hc _ eq_refl).
  destruct Hc as (_ & _ & _ & _ & Hc). vm_compute in Hc. discriminate.
Qed.

(** C6, as amended: [isexact()] is true exactly for a matcher built in
    exact mode without include and without exclude patterns; with either,
    [matchfn] is the conjunction of several functions and no longer
    [self.exact]. *)
Theorem isexact_iff_exact_alone H fuel root cwd patterns include exclude default exact_
    ctx listsubrepos warn icasefs m :
  outcome (match_ H fuel root cwd patterns include exclude default exact_ ctx
                  listsubrepos warn icasefs) = Ok m →
  isexact m = exact_ && negb (nonempty include) && negb (nonempty exclude).
Proof.
  rewrite match_unfold. intros Hm.
  apply bind_Ok in Hm as (o & Ho & Hm). apply ret_Ok in Hm. subst m.
  unfold matcher_init in Ho.
  inv_M; simplify_eq/=; reflexivity.
Qed.

Lemma isexact_iff_exact_alone_witness :
  ∃ m, outcome (match_ (Ref.host []) 0 "/r" "/r" ["a"; "b/c"] ["path:b"] [] "glob" true
                       None false false None) = Ok m
       ∧ isexact m = false.
Proof.
  eexists. split; [vm_compute; reflexivity|].
  apply (isexact_iff_exact_alone (Ref.host []) 0 "/r" "/r" ["a"; "b/c"] ["path:b"] []
           "glob" true None false false None).
  vm_compute. reflexivity.
Defined.

(** C6, as stated, fails: built in exact mode with an include pattern, the
    matcher is not [isexact()]. *)
Lemma isexact_false_with_include :
  ¬ (∀ (include exclude : list string) (exact_ : bool) (m : matcher),
       outcome (match_ (Ref.host []) 0 "/r" "/r" ["a"; "b/c"] include exclude "glob" exact_
                       None false false None) = Ok m →
       (isexact m = true ↔ exact_ = true)).
Proof.
  intros Hc.
  assert (Hm : ∃ m, outcome (match_ (Ref.host []) 0 "/r" "/r" ["a"; "b/c"] ["path:b"] []
                                    "glob" true None false false None) = Ok m
                    ∧ isexact m = false).
  { eexists. split; vm_compute; reflexivity. }
  destruct Hm as (m & Hm & He). apply Hc in Hm. rewrite He in Hm.
  destruct Hm as [_ Hm]. specialize (Hm eq_refl). discriminate.
Qed.

(** ** Always matchers *)

(** C3, as amended: when [always()] holds for a matcher built by [match],
    [files()] is empty, every path matches, and [visitdir(d)] is [True] for
    every directory [d]; it is never ['all'], which only prefix matchers
    answer. *)
Theorem always_visits_true H fuel root cwd patterns include exclude default exact_
    ctx listsubrepos warn icasefs m :
  outcome (match_ H fuel root cwd patterns include exclude default exact_ ctx
                  listsubrepos warn icasefs) = Ok m →
  always m = true →
  files m = [] ∧ (∀ p, matches m p = Ok true) ∧ (∀ d, visitdir m d = VTrue).
Proof.
  rewrite match_unfold. intros Hm.
  apply bind_Ok in Hm as (o & Ho & Hm). apply ret_Ok in Hm. subst m.
  unfold matcher_init in Ho.
  inv_M; simplify_eq/=; try discriminate; intros _.
  all: split; [reflexivity | split; [reflexivity |]].
  all: intros d; visit_sets.
Qed.

Lemma always_visits_true_witness :
  ∃ m, outcome (match_always (Ref.host []) 0 "/r" "/r") = Ok m
       ∧ files m = [] ∧ (∀ p, matches m p = Ok true) ∧ (∀ d, visitdir m d = VTrue).
Proof.
  eexists. split; [vm_compute; reflexivity|].
  apply (always_visits_true (Ref.host []) 0 "/r" "/r" [] [] [] "glob" false None false
           false None); reflexivity.
Defined.

(** C3, as stated, fails: the matcher of [always(root, cwd)] is [always()],
    and its [visitdir] does not answer ['all']. *)
Lemma always_visit_not_all :
  ¬ (∀ m, outcome (match_always (Ref.host []) 0 "/r" "/r") = Ok m →
          (always m = true ↔
           files m = [] ∧ (∀ p, matches m p = Ok true) ∧ (∀ d, visitdir m d = VAll))).
Proof.
  intros Hc. specialize (Hc _ eq_refl). destruct Hc as [Hc _].
  specialize (Hc eq_refl). destruct Hc as (_ & _ & Hc).
  specialize (Hc "a"). vm_compute in Hc. discriminate.
Qed.

(** The converse of the amended C3 does not hold either: including the
    whole tree gives a matcher without files that matches every path and
    visits every directory, and is not [always()]. *)
Lemma include_all_not_always :
  ∃ m, outcome (match_ (Ref.host []) 0 "/r" "/r" [] ["path:."] [] "glob" false None false
                       false None) = Ok m
       ∧ files m = [] ∧ matches m "a/b" = Ok true ∧ visitdir m "a" = VTrue
       ∧ always m = false.
Proof. eexists. repeat split; vm_compute; reflexivity. Qed.

(** ** Excluding everything *)

Lemma starstar_normalized H fuel root cwd warn icasefs kindpats :
  outcome (match icasefs with
           | Some ds => icase_normalize H ds fuel ["**"] "glob" root cwd warn
           | None => _donormalize H fuel ["**"] "glob" root cwd warn
           end) = Ok kindpats →
  _anypats kindpats = true.
Proof.
  destruct icasefs as [ds|]; [unfold icase_normalize|]; rewrite donormalize_unfold;
    simpl; unfold normalize_pattern; simpl;
    intros Hk; inv_M; simplify_eq/=.
  all: try destruct (negb _ && _); reflexivity.
Qed.

(** C4, as amended: in a matcher built with [exclude=["**"]] the set of
    exclude roots stays empty, because a glob is not a recursive exclude;
    built without patterns and without includes, its [visitdir] answers
    [True] for every directory. *)
Theorem exclude_starstar_is_no_root H fuel root cwd patterns include default exact_
    ctx listsubrepos warn icasefs m :
  outcome (match_ H fuel root cwd patterns include ["**"] default exact_ ctx
                  listsubrepos warn icasefs) = Ok m →
  (∃ o, m = Matcher o ∧ o_excluderoots o = ∅)
  ∧ (patterns = [] → include = [] → exact_ = false → ∀ d, visitdir m d = VTrue).
Proof.
  rewrite match_unfold. intros Hm.
  apply bind_Ok in Hm as (o & Ho & Hm). apply ret_Ok in Hm. subst m.
  unfold matcher_init in Ho. split.
  - exists o. split; [reflexivity|].
    inv_M; simplify_eq/=.
    all: match goal with
         | Hn : outcome _ = Ok ?x |- context [_anypats ?x] =>
             rewrite (starstar_normalized _ _ _ _ _ _ _ Hn)
         end; reflexivity.
  - intros -> -> -> d. simpl in Ho.
    inv_M; simplify_eq/=.
    match goal with
    | Hn : outcome _ = Ok ?x |- context [_anypats ?x] =>
        rewrite (starstar_normalized _ _ _ _ _ _ _ Hn)
    end; simpl.
    visit_sets.
Qed.

Lemma exclude_starstar_is_no_root_witness :
  ∃ m, outcome (match_ (Ref.host []) 0 "/r" "/r" [] [] ["**"] "glob" false None false
                       false None) = Ok m
       ∧ (∃ o, m = Matcher o ∧ o_excluderoots o = ∅)
       ∧ (∀ d, visitdir m d = VTrue)
       ∧ matches m "src/a.c" = Ok false.
Proof.
  eexists. split; [vm_compute; reflexivity|].
  pose proof (exclude_starstar_is_no_root (Ref.host []) 0 "/r" "/r" [] [] "glob" false
                None false false None _ eq_refl) as [Ho Hv].
  split; [exact Ho|]. split; [exact (Hv eq_refl eq_refl eq_refl)|].
  vm_compute. reflexivity.
Defined.

(** C4, as stated, fails: with [exclude=["**"]] alone, [visitdir("src")] is
    not [False]. *)
Lemma exclude_starstar_still_visits :
  ¬ (∀ (include : list string) (m : matcher),
       outcome (match_ (Ref.host []) 0 "/r" "/r" [] include ["**"] "glob" false None false
                       false None) = Ok m →
       ∀ d, visitdir m d = VFalse).
Proof.
  intros Hc. specialize (Hc [] _ eq_refl "src"). vm_compute in Hc. discriminate.
Qed.

(** ** The pruning contract *)

Lemma elem_of_dirs (d : string) (paths : list string) :
  d ∈ dirs paths ↔ ∃ p, p ∈ paths ∧ d ∈ finddirs p.
Proof.
  unfold dirs. rewrite elem_of_remove_dups, list_elem_of_In, in_flat_map.
  split; intros (p & Hp & Hd); exists p; rewrite ?list_elem_of_In in *; auto.
Qed.

Lemma elem_of_matcher_dirs (m : matcher) (p d : string) :
  p ∈ _fileset m → d ∈ finddirs p → d ∈ _dirs m.
Proof.
  intros Hp Hd. unfold _dirs. apply elem_of_union_l, elem_of_list_to_set, elem_of_dirs.
  exists p. split; [apply elem_of_elements, Hp | exact Hd].
Qed.

(** In exact mode, without include and exclude patterns, the pruning
    contract holds on every host: the ancestors of a listed file are
    visited. *)
Lemma exact_pruning_contract H fuel root cwd fs m :
  outcome (match_exact H fuel root cwd fs) = Ok m →
  ∀ p d, matches m p = Ok true → d ∈ finddirs p → visitdir m d = VTrue.
Proof.
  unfold match_exact. rewrite match_unfold. intros Hm. injection Hm as <-.
  intros p d Hp Hd. injection Hp as Hp. apply bool_decide_eq_true in Hp.
  pose proof (elem_of_matcher_dirs _ _ _ Hp Hd) as Hdirs.
  cbn [visitdir]. unfold matcher_visitdir.
  change (prefix _) with false. cbn [andb o_excluderoots o_includeroots o_includedirs].
  rewrite (bool_decide_eq_false_2 (d ∈ (∅ : gset string))) by apply not_elem_of_empty.
  rewrite (bool_decide_eq_false_2 ((∅ : gset string) ≠ ∅)) by (intros Hne; apply Hne; reflexivity).
  cbn [orb andb].
  rewrite (bool_decide_eq_true_2 _ Hdirs), !orb_true_r. reflexivity.
Qed.

(** C1 fails on the code for a glob with an escaped character.  The glob
    [a\b/c] is translated to a regular expression that matches [ab/c],
    while its root, and so [files()], keeps the backslash: [ab], an
    ancestor of the matching path, is not visited, although the root of the
    repository, its only parent, is. *)
Theorem glob_escape_breaks_pruning :
  ∃ m, outcome (match_ (Ref.host []) 0 "/r" "/r" ["glob:a\b/c"] [] [] "glob" false None
                       false false None) = Ok m
       ∧ files m = ["a\b/c"]
       ∧ matches m "ab/c" = Ok true
       ∧ In "ab" (finddirs "ab/c")
       ∧ visitdir m "." = VTrue
       ∧ visitdir m "ab" = VFalse.
Proof. eexists. repeat split; vm_compute; auto. Qed.

(** ** Subdirectory matchers that always match *)

(** C10: the subdirectory matcher of a prefix matcher [M] under a path [P]
    listed in [M.files()] is [always()], and its [files()] are the files of
    [M] under [P] with the prefix removed; they need not be empty, as for
    the patterns [path:sub] and [path:sub/b.txt]. *)
Theorem subdir_always_keeps_files :
  (∀ (M : matcher) (P : string),
     prefix M = true → In P (files M) →
     always (subdirmatcher P M) = true
     ∧ files (subdirmatcher P M)
       = map (Py.drop (String.length P + 1))
             (List.filter (fun f => Py.startswith f (P +:+ "/")) (files M)))
  ∧ (∃ M, outcome (match_ (Ref.host []) 0 "/r" "/r" ["path:sub"; "path:sub/b.txt"] [] []
                          "glob" false None false false None) = Ok M
          ∧ prefix M = true ∧ In "sub" (files M)
          ∧ always (subdirmatcher "sub" M) = true
          ∧ files (subdirmatcher "sub" M) = ["b.txt"]).
Proof.
  split.
  - intros M P Hp Hin. split; [|reflexivity].
    unfold subdirmatcher, always. rewrite Hp.
    apply existsb_exists. exists P. split; [exact Hin | apply String.eqb_refl].
  - eexists. repeat split; vm_compute; auto.
Qed.

Lemma subdir_always_keeps_files_witness :
  ∃ M, outcome (match_ (Ref.host []) 0 "/r" "/r" ["path:sub"; "path:sub/b.txt"] [] []
                       "glob" false None false false None) = Ok M
       ∧ always (subdirmatcher "sub" M) = true
       ∧ files (subdirmatcher "sub" M) ≠ [].
Proof.
  eexists. split; [vm_compute; reflexivity|].
  split.
  - apply (proj1 subdir_always_keeps_files); [reflexivity | simpl; auto].
  - discriminate.
Defined.

(** ** Laws of the warning monad *)

Lemma M_eq {A : Type} (m1 m2 : M A) :
  outcome m1 = outcome m2 → warnings m1 = warnings m2 → m1 = m2.
Proof. destruct m1, m2; simpl; intros -> ->; reflexivity. Qed.

Lemma M_ret_bind {A B : Type} (x : A) (k : A → M B) : (mret x ≫= k) = k x.
Proof. apply M_eq; reflexivity. Qed.


Lemma M_bind_assoc {A B C : Type} (m : M A) (f : A → M B) (g : B → M C) :
  ((m ≫= f) ≫= g) = (m ≫= λ x, f x ≫= g).
Proof.
  apply M_eq; unfold mbind, M_bind; destruct (outcome m) as [x|e]; simpl;
    try reflexivity; destruct (outcome (f x)); simpl; rewrite ?app_assoc; reflexivity.
Qed.


Local Open Scope list_scope.

(** ** Unfolding of the builders *)

Lemma buildregexmatch_unfold H kindpats globsuffix :
  _buildregexmatch H kindpats globsuffix
  = match try_compile H (compose_regex H kindpats globsuffix) with
    | Compiled m => Ok (compose_regex H kindpats globsuffix, m)
    | Rejected => Raise (report_invalid H kindpats globsuffix)
    | Overflowed =>
        if le_lt_dec 2 (length kindpats) then
          '(regexa, a) ← _buildregexmatch H (take (length kindpats / 2) kindpats) globsuffix;
          '(regexb, b) ← _buildregexmatch H (drop (length kindpats / 2) kindpats) globsuffix;
          Ok (compose_regex H kindpats globsuffix, fun s => a s || b s)
        else Raise OverflowError
    end.
Proof.
  rewrite _buildregexmatch_equation_1.
  destruct (try_compile H (compose_regex H kindpats globsuffix)); try reflexivity.
  unfold _buildregexmatch_unfold_clause_1.
  destruct (le_lt_dec 2 (length kindpats)); reflexivity.
Qed.

Lemma expandsubinclude_none H kindpats root :
  (∀ kp, In kp kindpats → kind_of kp ≠ "subinclude") →
  _expandsubinclude H kindpats root = Ok ([], kindpats).
Proof.
  induction kindpats as [|[[k p] s] rest IH]; intros Hk; [reflexivity|].
  cbn [_expandsubinclude].
  destruct (String.eqb_spec k "subinclude") as [->|_].
  - exfalso. exact (Hk ("subinclude", p, s) (or_introl eq_refl) eq_refl).
  - rewrite IH by (intros kp Hin; apply Hk; right; exact Hin). reflexivity.
Qed.

Lemma expandsets_none kindpats ctx listsubrepos :
  (∀ kp, In kp kindpats → kind_of kp ≠ "set") →
  _expandsets kindpats ctx listsubrepos = Ok (∅, kindpats).
Proof.
  induction kindpats as [|[[k p] s] rest IH]; intros Hk; [reflexivity|].
  cbn [_expandsets].
  destruct (String.eqb_spec k "set") as [->|_].
  - exfalso. exact (Hk ("set", p, s) (or_introl eq_refl) eq_refl).
  - rewrite IH by (intros kp Hin; apply Hk; right; exact Hin). reflexivity.
Qed.

(** ** Errors during normalization *)




Lemma M_raise_bind {A B : Type} (e : exn) (k : A → M B) : (raise e ≫= k) = raise e.
Proof. reflexivity. Qed.


Lemma report_invalid_first H globsuffix (pre post : list kindpat) (k p s : string) :
  (∀ kp, In kp pre → ∃ m, re_compile H (alone_regex H globsuffix kp) = ReMatcher m) →
  re_compile H (alone_regex H globsuffix (k, p, s)) = ReError →
  report_invalid H (pre ++ (k, p, s) :: post) globsuffix
  = Abort (invalid_pattern_message k p s).
Proof.
  intros Hpre Hbad. induction pre as [|[[k' p'] s'] pre IH]; cbn [app report_invalid].
  - cbn [alone_regex] in Hbad. rewrite Hbad. unfold invalid_pattern_message.
    destruct (negb _); reflexivity.
  - destruct (Hpre (k', p', s') (or_introl eq_refl)) as [m Hm]. cbn [alone_regex] in Hm.
    rewrite Hm. apply IH. intros kp Hin. apply Hpre. right. exact Hin.
Qed.

Lemma report_invalid_none H globsuffix (kindpats : list kindpat) :
  (∀ kp, In kp kindpats → ∃ m, re_compile H (alone_regex H globsuffix kp) = ReMatcher m) →
  report_invalid H kindpats globsuffix = Abort "invalid pattern".
Proof.
  induction kindpats as [|[[k p] s] rest IH]; intros Hall; [reflexivity|].
  cbn [report_invalid].
  destruct (Hall (k, p, s) (or_introl eq_refl)) as [m Hm]. cbn [alone_regex] in Hm.
  rewrite Hm. apply IH. intros kp Hin. apply Hall. right. exact Hin.
Qed.

Lemma try_compile_rejected_intro H regex :
  (Z.of_nat (String.length regex) <= 20000)%Z → re_compile H regex = ReError →
  try_compile H regex = Rejected.
Proof.
  intros Hlen Hre. unfold try_compile.
  destruct (Z.ltb_spec 20000 (Z.of_nat (String.length regex))); [lia|].
  rewrite Hre. reflexivity.
Qed.






Lemma outcome_bind_Ok {A B : Type} (c : M A) (k : A → M B) (x : A) :
  outcome c = Ok x → outcome (c ≫= k) = outcome (k x).
Proof. intros Hc. unfold mbind, M_bind. rewrite Hc. reflexivity. Qed.





(** ** Pattern files *)

Lemma startswith_inv (s p : string) :
  Py.startswith s p = true → ∃ r, s = p +:+ r.
Proof.
  revert s. induction p as [|a p IH]; intros s Hs.
  - exists s. reflexivity.
  - destruct s as [|b s]; [discriminate|]. simpl in Hs.
    destruct (Ascii.eqb a b) eqn:Hab; [|discriminate].
    apply Ascii.eqb_eq in Hab. subst b.
    destruct (IH s Hs) as [r ->]. exists r. reflexivity.
Qed.

Lemma linesyntax_loop_fires tbl syntax line :
  linesyntax_loop tbl syntax line = default (syntax, line) (first_fire tbl line).
Proof.
  induction tbl as [|[s rels] tbl IH]; [reflexivity|].
  cbn [linesyntax_loop first_fire entry_fires].
  destruct (Py.startswith line rels); [reflexivity|].
  destruct (Py.startswith line (s +:+ ":")); [reflexivity | exact IH].
Qed.

Lemma first_fire_Some tbl line r :
  first_fire tbl line = Some r → ∃ e, e ∈ tbl ∧ entry_fires e line = Some r.
Proof.
  induction tbl as [|e tbl IH]; [discriminate|]. cbn [first_fire].
  destruct (entry_fires e line) as [r'|] eqn:He.
  - intros [= ->]. exists e. split; [apply elem_of_cons; auto | exact He].
  - intros Hf. destruct (IH Hf) as (e' & Hin & He'). exists e'.
    split; [apply elem_of_cons; auto | exact He'].
Qed.

Lemma first_fire_None tbl line e :
  first_fire tbl line = None → e ∈ tbl → entry_fires e line = None.
Proof.
  induction tbl as [|e' tbl IH]; intros Hf Hin; [apply elem_of_nil in Hin; contradiction|].
  cbn [first_fire] in Hf. destruct (entry_fires e' line) eqn:He'; [discriminate|].
  apply elem_of_cons in Hin as [-> | Hin]; [exact He' | exact (IH Hf Hin)].
Qed.

Lemma syntaxes_agree e1 e2 line r1 r2 :
  e1 ∈ syntaxes → e2 ∈ syntaxes →
  entry_fires e1 line = Some r1 → entry_fires e2 line = Some r2 → r1 = r2.
Proof.
  assert (Hfirst : ∀ e r, e ∈ syntaxes → entry_fires e line = Some r →
                          first_fire syntaxes line = Some r).
  { unfold syntaxes. intros e r. rewrite !elem_of_cons, elem_of_nil.
    intros He Hf. destruct_or!; try contradiction; subst e; unfold entry_fires in Hf;
      repeat match type of Hf with
      | context [Py.startswith line ?p] =>
          let Hp := fresh "Hp" in
          destruct (Py.startswith line p) eqn:Hp;
          [apply startswith_inv in Hp as [? ->]; injection Hf as <-;
           try (match goal with
                | Hq : Py.startswith _ _ = false |- _ => vm_compute in Hq; discriminate
                end);
           vm_compute; reflexivity|]
      end; discriminate. }
  intros H1 H2 F1 F2.
  apply Hfirst in F1; [|exact H1]. apply Hfirst in F2; [|exact H2]. congruence.
Qed.

(** The order in which the dictionary [syntaxes] is iterated does not
    matter: every table with the same entries gives the same result. *)
Lemma syntaxes_order_irrelevant tbl syntax line :
  (∀ e, e ∈ tbl ↔ e ∈ syntaxes) →
  linesyntax_loop tbl syntax line = linesyntax_loop syntaxes syntax line.
Proof.
  intros Hperm. rewrite !linesyntax_loop_fires.
  destruct (first_fire tbl line) as [r|] eqn:Ht;
    destruct (first_fire syntaxes line) as [r'|] eqn:Hs; simpl.
  - apply first_fire_Some in Ht as (e & Hin & He).
    apply first_fire_Some in Hs as (e' & Hin' & He').
    apply (syntaxes_agree e e' line); [apply Hperm| | |]; assumption.
  - apply first_fire_Some in Ht as (e & Hin & He).
    rewrite (first_fire_None _ _ e Hs) in He; [discriminate | apply Hperm, Hin].
  - apply first_fire_Some in Hs as (e & Hin & He).
    rewrite (first_fire_None _ _ e Ht) in He; [discriminate | apply Hperm, Hin].
  - reflexivity.
Qed.
















(** ** The split of long regular expressions *)


Lemma try_compile_compiled H regex m :
  try_compile H regex = Compiled m → re_compile H regex = ReMatcher m.
Proof.
  unfold try_compile. destruct (20000 <? _)%Z; [discriminate|].
  destruct (re_compile H regex); intros Hc; simplify_eq/=; reflexivity.
Qed.

Lemma window_length {A : Type} (i k : nat) (l : list A) :
  k ≤ length l → length (window i k l) = k - i.
Proof. intros Hk. unfold window. rewrite length_take, length_drop. lia. Qed.

Lemma window_take {A : Type} (i j k : nat) (l : list A) :
  i ≤ j ≤ k → take (j - i) (window i k l) = window i j l.
Proof.
  intros Hj. unfold window. rewrite take_take. f_equal. lia.
Qed.

Lemma window_drop {A : Type} (i j k : nat) (l : list A) :
  i ≤ j ≤ k → drop (j - i) (window i k l) = window j k l.
Proof.
  intros Hj. unfold window. rewrite skipn_firstn_comm, drop_drop.
  f_equal; [lia | f_equal; lia].
Qed.

Lemma window_all {A : Type} (l : list A) : window 0 (length l) l = l.
Proof. unfold window. rewrite Nat.sub_0_r. simpl. apply firstn_all. Qed.

Section Split.
Variable H : Host.
(** what a regular expression matches, whether the engine can compile it
    or not *)
Variable denote : string → string → bool.
Variable globsuffix : string.
Variable s : string.
Variable kindpats : list kindpat.

Hypothesis compile_denote :
  ∀ regex m, re_compile H regex = ReMatcher m → m s = denote regex s.
Hypothesis alternation :
  ∀ i j k, i < j → j < k → k ≤ length kindpats →
    denote (compose_regex H (window i k kindpats) globsuffix) s
    = denote (compose_regex H (window i j kindpats) globsuffix) s
      || denote (compose_regex H (window j k kindpats) globsuffix) s.

Lemma buildregexmatch_window (n i k : nat) :
  k - i ≤ n → i ≤ k ≤ length kindpats →
  ∀ regex f,
    _buildregexmatch H (window i k kindpats) globsuffix = Ok (regex, f) →
    regex = compose_regex H (window i k kindpats) globsuffix
    ∧ f s = denote regex s.
Proof.
  revert i k. induction n as [|n IH]; intros i k Hn Hik regex f;
    rewrite buildregexmatch_unfold;
    destruct (try_compile H _) as [m| |] eqn:Htry; try discriminate.
  1,3: intros Hb; simplify_eq/=; split; [reflexivity|];
       apply compile_denote, try_compile_compiled, Htry.
  all: destruct (le_lt_dec 2 (length (window i k kindpats))) as [Hl|Hl];
       [|discriminate].
  all: rewrite window_length in Hl |- * by lia.
  { lia. }
  set (j := i + (k - i) / 2).
  assert (Hj : i < j < k).
  { pose proof (Nat.div_lt (k - i) 2). pose proof (Nat.div_str_pos (k - i) 2).
    unfold j. lia. }
  replace ((k - i) / 2) with (j - i) by (unfold j; lia).
  rewrite window_take, window_drop by lia.
  destruct (_buildregexmatch H (window i j kindpats) globsuffix) as [[ra a]|] eqn:Ha;
    [|discriminate].
  destruct (_buildregexmatch H (window j k kindpats) globsuffix) as [[rb b]|] eqn:Hb;
    [|discriminate].
  intros Hr. simplify_eq/=. split; [reflexivity|].
  assert (Hdiv : (k - i) / 2 < k - i) by (apply Nat.div_lt; lia).
  destruct (IH i j ltac:(unfold j; lia) ltac:(lia) _ _ Ha) as [-> Hfa].
  destruct (IH j k ltac:(unfold j; lia) ltac:(lia) _ _ Hb) as [-> Hfb].
  rewrite Hfa, Hfb. symmetry. apply alternation; lia.
Qed.
End Split.

(** When the alternation of the patterns can be taken apart at every split,
    a matcher that was built answers what the composed expression of the
    whole list matches.  Patterns that are regular expressions on their
    own have this property; others do not, see [split_claim_fails]. *)
Lemma split_agrees_under_alternation (H : Host) (kindpats : list kindpat)
    (globsuffix : string) (denote : string → string → bool) (s : string) :
  (∀ r m, re_compile H r = ReMatcher m → m s = denote r s) →
  (∀ i j k, i < j → j < k → k ≤ length kindpats →
     denote (compose_regex H (window i k kindpats) globsuffix) s
     = denote (compose_regex H (window i j kindpats) globsuffix) s
       || denote (compose_regex H (window j k kindpats) globsuffix) s) →
  ∀ r f, _buildregexmatch H kindpats globsuffix = Ok (r, f) →
         f s = denote (compose_regex H kindpats globsuffix) s.
Proof.
  intros Hc Halt r f Hb.
  rewrite <- (window_all kindpats) in Hb.
  destruct (buildregexmatch_window H denote globsuffix s kindpats Hc Halt
              (length kindpats) 0 (length kindpats) ltac:(lia) ltac:(lia) r f Hb)
    as [Hr Hf].
  rewrite window_all in Hr. subst r. exact Hf.
Qed.





(** the composed regular expression of that list is one that the
    reference engine reads, and it does not match [b] *)
Lemma open_regex_valid :
  match Ref.compile (compose_regex (Ref.host []) open_kindpats "$") with
  | ReMatcher m => m "b" = false
  | _ => False
  end.
Proof. vm_compute. reflexivity. Qed.

(** * Further properties *)

Local Open Scope list_scope.

(** ** Pattern kinds *)

Lemma has_char_app c s t : Py.has_char c (s +:+ t) = Py.has_char c s || Py.has_char c t.
Proof.
  induction s as [|a s IH]; [reflexivity|].
  change (String a s +:+ t) with (String a (s +:+ t)). cbn [Py.has_char].
  rewrite IH, orb_assoc. reflexivity.
Qed.

Lemma partition_first c s t :
  Py.has_char c s = false → Py.partition c (s +:+ String c t) = Some (s, t).
Proof.
  induction s as [|a s IH]; intros Hs.
  - change ("" +:+ String c t) with (String c t). cbn [Py.partition].
    rewrite Ascii.eqb_refl. reflexivity.
  - change (String a s +:+ String c t) with (String a (s +:+ String c t)).
    cbn [Py.partition Py.has_char] in *. apply orb_false_elim in Hs as [Ha Hs].
    rewrite Ha, (IH Hs). reflexivity.
Qed.

Lemma partition_Some c s l r :
  Py.partition c s = Some (l, r) → s = l +:+ String c r ∧ Py.has_char c l = false.
Proof.
  revert l. induction s as [|a s IH]; intros l; [discriminate|].
  cbn [Py.partition]. destruct (Ascii.eqb a c) eqn:Hac.
  - intros [= <- <-]. apply Ascii.eqb_eq in Hac as ->. split; reflexivity.
  - destruct (Py.partition c s) as [[l' r']|]; [|discriminate].
    intros [= <- <-]. destruct (IH l' eq_refl) as [-> Hl]. split; [reflexivity|].
    cbn [Py.has_char]. rewrite Hac, Hl. reflexivity.
Qed.

Lemma partition_None c s : Py.partition c s = None → Py.has_char c s = false.
Proof.
  induction s as [|a s IH]; [reflexivity|]. cbn [Py.partition Py.has_char].
  destruct (Ascii.eqb a c); [discriminate|].
  destruct (Py.partition c s) as [[l r]|]; [discriminate|]. intros _. apply IH. reflexivity.
Qed.

Lemma str_in_In x l : str_in x l = true ↔ In x l.
Proof.
  unfold str_in. rewrite existsb_exists. split.
  - intros (y & Hy & Hxy). apply String.eqb_eq in Hxy as ->. exact Hy.
  - intros Hx. exists x. split; [exact Hx | apply String.eqb_refl].
Qed.

Lemma known_kinds_no_colon k : In k known_kinds → Py.has_char ":" k = false.
Proof.
  unfold known_kinds. simpl. intros Hk. destruct_or!; subst; try reflexivity; contradiction.
Qed.

(** X1: a pattern written as a known kind, a colon and a text splits into
    that kind and that text, whatever the text holds (further colons
    included) and whatever the default kind is. *)
Theorem patsplit_join (kind pat default : string) :
  In kind known_kinds → _patsplit (kind +:+ ":" +:+ pat) default = (kind, pat).
Proof.
  intros Hk. unfold _patsplit.
  change (":" +:+ pat) with (String ":" pat).
  rewrite (partition_first ":" kind pat (known_kinds_no_colon kind Hk)).
  rewrite (proj2 (str_in_In kind known_kinds) Hk). reflexivity.
Qed.

Lemma patsplit_join_witness :
  _patsplit "rootfilesin:src/lib:x" "glob" = ("rootfilesin", "src/lib:x").
Proof.
  apply (patsplit_join "rootfilesin" "src/lib:x" "glob"). unfold known_kinds. simpl. tauto.
Defined.

Lemma patsplit_lossless_aux (pattern default kind pat : string) :
  _patsplit pattern default = (kind, pat) →
  (In kind known_kinds ∧ pattern = kind +:+ ":" +:+ pat) ∨ (kind = default ∧ pat = pattern).
Proof.
  unfold _patsplit. destruct (Py.partition ":" pattern) as [[k p]|] eqn:Hp.
  - apply partition_Some in Hp as [-> Hk].
    destruct (str_in k known_kinds) eqn:Hin; intros [= <- <-].
    + left. split; [apply str_in_In, Hin | reflexivity].
    + right. split; reflexivity.
  - intros [= <- <-]. right. split; reflexivity.
Qed.

(** X2: [_patsplit] loses nothing.  Either the kind it returns is a known
    kind and the pattern is that kind, a colon and the text returned, or
    the kind is the default, the text is the whole pattern and the pattern
    does not start with a known kind and a colon. *)
Theorem patsplit_lossless (pattern default kind pat : string) :
  _patsplit pattern default = (kind, pat) →
  (In kind known_kinds ∧ pattern = kind +:+ ":" +:+ pat)
  ∨ (kind = default ∧ pat = pattern
     ∧ ∀ k rest, In k known_kinds → pattern ≠ k +:+ ":" +:+ rest).
Proof.
  unfold _patsplit. destruct (Py.partition ":" pattern) as [[k p]|] eqn:Hp.
  - apply partition_Some in Hp as [-> Hk].
    destruct (str_in k known_kinds) eqn:Hin; intros [= <- <-].
    + left. split; [apply str_in_In, Hin | reflexivity].
    + right. split; [reflexivity|]. split; [reflexivity|].
      intros k' rest Hk' Heq.
      assert (Hs : Py.partition ":" (k +:+ String ":" p) = Some (k', rest)).
      { rewrite Heq. apply partition_first, known_kinds_no_colon, Hk'. }
      rewrite (partition_first ":" k p Hk) in Hs. injection Hs as -> ->.
      apply str_in_In in Hk'. congruence.
  - intros [= <- <-]. right. split; [reflexivity|]. split; [reflexivity|].
    intros k rest Hk ->. apply partition_None in Hp.
    rewrite has_char_app in Hp. simpl in Hp. rewrite orb_true_r in Hp. discriminate.
Qed.

Lemma patsplit_lossless_witness :
  (In "re" known_kinds ∧ "re:a:b" = "re" +:+ ":" +:+ "a:b")
  ∨ ("re" = "glob" ∧ "a:b" = "re:a:b"
     ∧ ∀ k rest, In k known_kinds → "re:a:b" ≠ k +:+ ":" +:+ rest).
Proof. apply (patsplit_lossless "re:a:b" "glob" "re" "a:b"). reflexivity. Defined.

(** ** Globs without wildcards *)

Lemma str_app_assoc (a b c : string) : (a +:+ b) +:+ c = a +:+ (b +:+ c).
Proof.
  induction a as [|x a IH]; [reflexivity|].
  change (String x a +:+ b) with (String x (a +:+ b)).
  change (String x (a +:+ b) +:+ c) with (String x ((a +:+ b) +:+ c)).
  rewrite IH. reflexivity.
Qed.

Lemma str_app_nil_r (a : string) : a +:+ "" = a.
Proof.
  induction a as [|x a IH]; [reflexivity|].
  change (String x a +:+ "") with (String x (a +:+ "")). rewrite IH. reflexivity.
Qed.

Lemma globre_loop_literal esc group pat res :
  all_chars (λ c, negb (Py.has_char c glob_special)) pat = true →
  globre_loop esc 0 group pat res = res +:+ escape_each esc pat.
Proof.
  revert res. induction pat as [|c pat IH]; intros res Hp.
  - cbn [globre_loop escape_each]. rewrite str_app_nil_r. reflexivity.
  - cbn [all_chars] in Hp. apply andb_prop in Hp as [Hc Hp].
    cbn [globre_loop escape_each]. unfold glob_special in Hc. rewrite Hc.
    rewrite (IH _ Hp), str_app_assoc. reflexivity.
Qed.

Lemma py_escape_each s : escape_each py_escape s = py_escape s.
Proof.
  induction s as [|c s IH]; [reflexivity|].
  cbn [escape_each py_escape]. rewrite IH.
  destruct (isalnum c); [reflexivity|]. destruct (Ascii.eqb c "000"); reflexivity.
Qed.

(** X3: a glob without any of the characters [*], [?], [[], [{], [}],
    [,] and the backslash is translated one character at a time by the
    escape function of the host; with Python's [re.escape] the translation
    is the escaped pattern. *)
Theorem globre_literal (esc : string → string) (pat : string) :
  all_chars (λ c, negb (Py.has_char c glob_special)) pat = true →
  _globre esc pat = escape_each esc pat ∧ _globre py_escape pat = py_escape pat.
Proof.
  intros Hp. unfold _globre. rewrite !(globre_loop_literal _ 0 pat "" Hp).
  split; [reflexivity | apply py_escape_each].
Qed.

Lemma globre_literal_witness :
  _globre py_escape "src/main.c" = "src\/main\.c".
Proof.
  etransitivity; [exact (proj2 (globre_literal py_escape "src/main.c" eq_refl))|].
  reflexivity.
Defined.

(** ** Roots of patterns *)

Lemma split_nonempty c s : Py.split c s ≠ [].
Proof.
  destruct s as [|a s]; cbn [Py.split]; [discriminate|].
  destruct (Ascii.eqb a c); [discriminate|]. destruct (Py.split c s); discriminate.
Qed.

Lemma join_cons sep x l : l ≠ [] → Py.join sep (x :: l) = x +:+ sep +:+ Py.join sep l.
Proof. destruct l; [contradiction | reflexivity]. Qed.

Lemma join_app sep l1 l2 :
  l1 ≠ [] → l2 ≠ [] → Py.join sep (l1 ++ l2) = Py.join sep l1 +:+ sep +:+ Py.join sep l2.
Proof.
  intros H1 H2. induction l1 as [|x l1 IH]; [contradiction|].
  destruct l1 as [|y l1].
  - simpl app. rewrite join_cons by exact H2. reflexivity.
  - change ((x :: y :: l1) ++ l2)%list with (x :: ((y :: l1) ++ l2))%list.
    rewrite !join_cons by discriminate. rewrite IH by discriminate.
    rewrite !str_app_assoc. reflexivity.
Qed.

(** splitting at a character and joining with it gives the string back *)
Lemma join_split c s : Py.join (String c "") (Py.split c s) = s.
Proof.
  induction s as [|a s IH]; [reflexivity|]. cbn [Py.split].
  destruct (Ascii.eqb a c) eqn:Hac.
  - apply Ascii.eqb_eq in Hac as ->.
    rewrite join_cons by apply split_nonempty. rewrite IH. reflexivity.
  - destruct (Py.split c s) as [|w ws] eqn:Hs; [exfalso; exact (split_nonempty c s Hs)|].
    rewrite <- IH. destruct ws; reflexivity.
Qed.

Lemma glob_root_prefix parts : ∃ rest, parts = glob_root parts ++ rest.
Proof.
  induction parts as [|p ps [rest IH]]; [exists []; reflexivity|].
  cbn [glob_root]. destruct (_ || _).
  - exists (p :: ps). reflexivity.
  - exists rest. simpl. rewrite <- IH. reflexivity.
Qed.

Lemma split_has_char c sep s :
  Py.has_char c s = false → Forall (λ p, Py.has_char c p = false) (Py.split sep s).
Proof.
  induction s as [|a s IH]; intros Hs; [repeat constructor|].
  cbn [Py.has_char] in Hs. apply orb_false_elim in Hs as [Ha Hs]. specialize (IH Hs).
  cbn [Py.split]. destruct (Ascii.eqb a sep).
  - constructor; [reflexivity | exact IH].
  - destruct (Py.split sep s) as [|w ws]; [repeat constructor; simpl; rewrite Ha; reflexivity|].
    inversion IH; subst. constructor; [|assumption].
    cbn [Py.has_char]. rewrite Ha. assumption.
Qed.

Lemma glob_root_all parts :
  Forall (λ p, Py.has_char "[" p = false ∧ Py.has_char "{" p = false
               ∧ Py.has_char "*" p = false ∧ Py.has_char "?" p = false) parts →
  glob_root parts = parts.
Proof.
  induction 1 as [|p ps (H1 & H2 & H3 & H4) _ IH]; [reflexivity|].
  cbn [glob_root]. rewrite H1, H2, H3, H4, IH. reflexivity.
Qed.

(** X4: the root that a glob pattern contributes is a prefix of the
    pattern ([.] standing for the empty prefix): the pattern is the root
    followed by nothing or by a slash and more, unless the root is empty;
    a pattern without [[], [{], [*] and [?] is its own root. *)
Theorem glob_root_is_prefix (pat source : string) (rest : list kindpat) :
  ∃ r tail,
    _roots (("glob", pat, source) :: rest) = or_dot r :: _roots rest
    ∧ pat = r +:+ tail
    ∧ (tail = "" ∨ r = "" ∨ Py.startswith tail "/" = true)
    ∧ (Py.has_char "[" pat = false → Py.has_char "{" pat = false →
       Py.has_char "*" pat = false → Py.has_char "?" pat = false → r = pat).
Proof.
  destruct (glob_root_prefix (Py.split "/" pat)) as [l2 Hsplit].
  exists (Py.join "/" (glob_root (Py.split "/" pat))).
  destruct l2 as [|x l2].
  - exists "". rewrite app_nil_r in Hsplit.
    assert (Hr : Py.join "/" (glob_root (Py.split "/" pat)) = pat).
    { rewrite <- Hsplit. apply join_split. }
    split; [|split; [|split]].
    + unfold _roots. cbn [_patternrootsanddirs].
      destruct (_patternrootsanddirs rest); reflexivity.
    + rewrite Hr, str_app_nil_r. reflexivity.
    + left. reflexivity.
    + intros. exact Hr.
  - destruct (glob_root (Py.split "/" pat)) as [|y l1] eqn:Hroot.
    + exists pat. split; [|split; [|split]].
      * unfold _roots. cbn [_patternrootsanddirs]. rewrite Hroot.
        destruct (_patternrootsanddirs rest); reflexivity.
      * reflexivity.
      * right. left. reflexivity.
      * intros H1 H2 H3 H4. exfalso.
        assert (Hall : glob_root (Py.split "/" pat) = Py.split "/" pat).
        { apply glob_root_all.
          pose proof (split_has_char "[" "/" pat H1) as F1.
          pose proof (split_has_char "{" "/" pat H2) as F2.
          pose proof (split_has_char "*" "/" pat H3) as F3.
          pose proof (split_has_char "?" "/" pat H4) as F4.
          rewrite Forall_forall in *. intros p Hp. auto. }
        rewrite Hroot in Hall. symmetry in Hall. exact (split_nonempty _ _ Hall).
    + exists ("/" +:+ Py.join "/" (x :: l2)). split; [|split; [|split]].
      * unfold _roots. cbn [_patternrootsanddirs]. rewrite Hroot.
        destruct (_patternrootsanddirs rest); reflexivity.
      * rewrite <- (join_split "/" pat) at 1. rewrite Hsplit at 1.
        apply join_app; discriminate.
      * right. right. reflexivity.
      * intros H1 H2 H3 H4. exfalso.
        assert (Hall : glob_root (Py.split "/" pat) = Py.split "/" pat).
        { apply glob_root_all.
          pose proof (split_has_char "[" "/" pat H1) as F1.
          pose proof (split_has_char "{" "/" pat H2) as F2.
          pose proof (split_has_char "*" "/" pat H3) as F3.
          pose proof (split_has_char "?" "/" pat H4) as F4.
          rewrite Forall_forall in *. intros p Hp. auto. }
        rewrite Hroot in Hall. rewrite <- Hall in Hsplit.
        apply (f_equal length) in Hsplit. rewrite length_app in Hsplit. simpl in Hsplit. lia.
Qed.

Lemma rootsanddirs_unfold (kindpats : list kindpat) :
  _rootsanddirs kindpats
  = (_roots kindpats,
     ((snd (_patternrootsanddirs kindpats)
       ++ dirs (snd (_patternrootsanddirs kindpats))) ++ dirs (_roots kindpats)) ++ ["."]).
Proof.
  unfold _rootsanddirs, _roots. destruct (_patternrootsanddirs kindpats); reflexivity.
Qed.

(** the ancestors of the roots are among the directories of [_rootsanddirs],
    and so is the top directory *)
Lemma rootsanddirs_roots (kindpats : list kindpat) :
  fst (_rootsanddirs kindpats) = _roots kindpats
  ∧ In "." (snd (_rootsanddirs kindpats))
  ∧ ∀ x a, In x (_roots kindpats) → In a (finddirs x) → In a (snd (_rootsanddirs kindpats)).
Proof.
  rewrite rootsanddirs_unfold. cbn [fst snd]. split; [reflexivity|]. split.
  - rewrite !in_app_iff. right. left. reflexivity.
  - intros x a Hx Ha. rewrite !in_app_iff. left. right.
    apply list_elem_of_In, elem_of_dirs. exists x. rewrite !list_elem_of_In. auto.
Qed.

(** X5: [_rootsanddirs] returns the roots of [_roots] unchanged, and
    among the directories it returns are [.], every exact directory of the
    patterns and every ancestor of a root or of an exact directory; every
    pattern gives one root or one exact directory. *)
Theorem rootsanddirs_reachable (kindpats : list kindpat) :
  let roots := fst (_rootsanddirs kindpats) in
  let ds := snd (_rootsanddirs kindpats) in
  let exactdirs := snd (_patternrootsanddirs kindpats) in
  roots = _roots kindpats
  ∧ In "." ds
  ∧ (∀ d, In d exactdirs → In d ds)
  ∧ (∀ x a, In x roots ∨ In x exactdirs → In a (finddirs x) → In a ds)
  ∧ length roots + length exactdirs = length kindpats.
Proof.
  cbv zeta. destruct (rootsanddirs_roots kindpats) as (Hroots & Hdot & Hanc).
  rewrite Hroots. split; [reflexivity|]. split; [exact Hdot|]. split; [|split].
  - intros d Hd. rewrite rootsanddirs_unfold. cbn [snd]. rewrite !in_app_iff. auto.
  - intros x a [Hx|Hx] Ha; [exact (Hanc x a Hx Ha)|].
    rewrite rootsanddirs_unfold. cbn [snd]. rewrite !in_app_iff. left. left. right.
    apply list_elem_of_In, elem_of_dirs. exists x. rewrite !list_elem_of_In. auto.
  - clear Hroots Hdot Hanc. unfold _roots. induction kindpats as [|[[k p] s] kps IH]; [reflexivity|].
    cbn [_patternrootsanddirs]. destruct (_patternrootsanddirs kps) as [r d].
    cbn [fst snd] in IH. destruct (String.eqb k "glob"); [simpl; lia|].
    destruct (str_in k _); [simpl; lia|]. destruct (str_in k _); simpl; lia.
Qed.

(** ** Directories visited for include and exclude patterns *)

Lemma bool_decide_in_list_to_set (x : string) (l : list string) :
  In x l → bool_decide (x ∈ (list_to_set l : gset string)) = true.
Proof. intros Hx. apply bool_decide_eq_true, elem_of_list_to_set, list_elem_of_In, Hx. Qed.

Lemma existsb_in_list_to_set (x : string) (l ds : list string) :
  In x ds → In x l →
  existsb (λ p, bool_decide (p ∈ (list_to_set l : gset string))) ds = true.
Proof.
  intros Hd Hl. apply existsb_exists. exists x. split; [exact Hd|].
  apply bool_decide_in_list_to_set, Hl.
Qed.

(** like [inv_M], keeping the equations of the pairs it takes apart *)
Ltac inv_M_eqn :=
  repeat match goal with
  | Hb : outcome (_ ≫= _) = Ok _ |- _ =>
      let x := fresh "x" in let Hx := fresh "Hx" in
      apply bind_Ok in Hb as (x & Hx & Hb)
  | Hb : outcome (M_bind _ _ ?k ?c) = Ok _ |- _ =>
      let x := fresh "x" in let Hx := fresh "Hx" in
      apply (bind_Ok c k) in Hb as (x & Hx & Hb)
  | Hb : outcome (mret _) = Ok _ |- _ => apply ret_Ok in Hb
  | Hb : outcome (M_ret _ _) = Ok _ |- _ => apply ret_Ok in Hb
  | Hb : outcome (let '(_, _) := ?p in _) = Ok _ |- _ => destruct p eqn:?
  | Hb : outcome (if ?b then _ else _) = Ok _ |- _ => destruct b eqn:?
  end.

Lemma include_rule_passes (a b1 b2 b3 b4 : bool) :
  b1 || b2 || b3 || b4 = true → a && negb b1 && negb b2 && negb b3 && negb b4 = false.
Proof. destruct a, b1, b2, b3, b4; simpl; congruence. Qed.

(** [visitdir] of a matcher without files, without exclude roots and with
    [anypats()]: only the rule of the include roots and dirs decides *)
Lemma visitdir_without_files (o : matcher_obj) (d : string) :
  o_files o = [] → o_anypats o = true → o_excluderoots o = ∅ →
  matcher_visitdir (Matcher o) o d
  = if (bool_decide (o_includeroots o ≠ ∅) || bool_decide (o_includedirs o ≠ ∅))
       && negb (bool_decide ("." ∈ o_includeroots o))
       && negb (bool_decide (d ∈ o_includeroots o))
       && negb (bool_decide (d ∈ o_includedirs o))
       && negb (existsb (fun parent => bool_decide (parent ∈ o_includeroots o))
                        (finddirs d))
    then VFalse else VTrue.
Proof.
  intros Hf Ha He. unfold matcher_visitdir, prefix, _fileset, _dirs.
  cbn [files anypats]. rewrite Hf, Ha, He, andb_false_r. cbn [andb].
  rewrite (bool_decide_eq_false_2 (d ∈ (∅ : gset string))) by apply not_elem_of_empty.
  rewrite (bool_decide_eq_false_2 ((list_to_set [] : gset string) ≠ ∅))
    by (intros Hn; apply Hn; reflexivity).
  reflexivity.
Qed.

(** X6: a matcher built from include patterns alone, without [icasefs],
    visits the top directory, every root of the include patterns, every
    ancestor of such a root and every directory below such a root, and it
    never answers ['all']. *)
Theorem include_roots_are_visited H fuel root cwd include ctx listsubrepos warn kindpats m :
  include ≠ [] →
  outcome (_donormalize H fuel include "glob" root cwd warn) = Ok kindpats →
  outcome (match_ H fuel root cwd [] include [] "glob" false ctx listsubrepos warn None)
  = Ok m →
  visitdir m "." = VTrue
  ∧ (∀ r, In r (_roots kindpats) →
       visitdir m r = VTrue
       ∧ (∀ a, In a (finddirs r) → visitdir m a = VTrue)
       ∧ (∀ d, In r (finddirs d) → visitdir m d = VTrue))
  ∧ (∀ d, visitdir m d ≠ VAll).
Proof.
  intros Hne Hnorm. rewrite match_unfold. intros Hm.
  apply bind_Ok in Hm as (o & Ho & Hm). apply ret_Ok in Hm. subst m.
  unfold matcher_init in Ho. destruct include as [|i include]; [contradiction|].
  cbn [nonempty] in Ho. inv_M_eqn. simplify_eq/=.
  match goal with |- context [Matcher ?r] => remember r as o eqn:Ho end.
  match goal with
  | Hn : outcome (_donormalize _ _ _ _ _ _ _) = Ok ?x, Hk : _ = Ok kindpats |- _ =>
      rewrite Hk in Hn; injection Hn as <-
  end.
  pose proof (rootsanddirs_roots kindpats) as (Hr & Hdot & Hanc).
  match goal with Hrd : _rootsanddirs kindpats = (?a, ?b) |- _ =>
    rewrite Hrd in Hr, Hdot, Hanc; cbn [fst snd] in Hr, Hdot, Hanc; subst a;
    rename b into ds end.
  assert (Hv : ∀ d, In d (_roots kindpats) ∨ In d ds
                    ∨ (∃ r, In r (_roots kindpats) ∧ In r (finddirs d)) →
                    matcher_visitdir (Matcher o) o d = VTrue).
  { intros d Hd. subst o. rewrite visitdir_without_files by reflexivity.
    cbn [o_includeroots o_includedirs]. rewrite include_rule_passes; [reflexivity|].
    destruct Hd as [Hd | [Hd | (r0 & Hr0 & Hd)]].
    - rewrite (bool_decide_in_list_to_set d _ Hd), !orb_true_r. reflexivity.
    - rewrite (bool_decide_in_list_to_set d _ Hd), !orb_true_r. reflexivity.
    - rewrite (existsb_in_list_to_set r0 _ _ Hd Hr0), !orb_true_r. reflexivity. }
  split; [|split].
  - apply Hv. auto.
  - intros r1 Hin. split; [|split].
    + apply Hv. auto.
    + intros a Ha. apply Hv. right. left. exact (Hanc r1 a Hin Ha).
    + intros d Hd. apply Hv. right. right. exists r1. auto.
  - intros d. subst o. rewrite visitdir_without_files by reflexivity.
    destruct (_ && _); discriminate.
Qed.

Lemma visitdir_excluded (o : matcher_obj) (d : string) :
  o_anypats o = true → d ∈ o_excluderoots o →
  matcher_visitdir (Matcher o) o d = VFalse.
Proof.
  intros Ha Hd. unfold matcher_visitdir, prefix. cbn [anypats]. rewrite Ha, andb_false_r.
  cbn [andb]. rewrite (bool_decide_eq_true_2 _ Hd). reflexivity.
Qed.

(** X7: when no exclude pattern is a glob, a regular expression, a
    fileset or a [rootfilesin], [visitdir] answers [False] for every root
    of the exclude patterns, whatever the patterns and the include patterns
    are (for a matcher built without [icasefs]). *)
Theorem exclude_roots_are_pruned H fuel root cwd patterns include exclude default exact_
    ctx listsubrepos warn kindpats m :
  outcome (_donormalize H fuel exclude "glob" root cwd warn) = Ok kindpats →
  _anypats kindpats = false →
  outcome (match_ H fuel root cwd patterns include exclude default exact_ ctx listsubrepos
                  warn None) = Ok m →
  ∀ r, In r (_roots kindpats) → visitdir m r = VFalse.
Proof.
  intros Hnorm Hany. rewrite match_unfold. intros Hm r Hr.
  apply bind_Ok in Hm as (o & Ho & Hm). apply ret_Ok in Hm. subst m.
  unfold matcher_init in Ho. destruct exclude as [|e exclude].
  { rewrite donormalize_unfold in Hnorm. injection Hnorm as <-. destruct Hr. }
  cbn [nonempty] in Ho. rewrite orb_true_r in Ho.
  inv_M_eqn; simplify_eq/=.
  all: repeat match goal with
       | Hn : outcome ?c = Ok ?x, Hk : outcome ?c = Ok ?y |- _ =>
           rewrite Hk in Hn; injection Hn as ?; subst x
       end.
  all: apply visitdir_excluded; [reflexivity|]; cbn [o_excluderoots]; rewrite Hany;
       apply elem_of_list_to_set, list_elem_of_In, Hr.
Qed.

Lemma exclude_roots_are_pruned_witness :
  ∃ m, outcome (match_ (Ref.host []) 0 "/r" "/r" [] ["path:src"] ["path:src/vendor"] "glob"
                       false None false false None) = Ok m
       ∧ visitdir m "src/vendor" = VFalse
       ∧ visitdir m "src" = VTrue
       ∧ matches m "src/a.c" = Ok true
       ∧ matches m "src/vendor/x.c" = Ok false.
Proof.
  eexists. split; [rewrite match_unfold; reflexivity|].
  split; [|repeat split; vm_compute; reflexivity].
  apply (exclude_roots_are_pruned (Ref.host []) 0 "/r" "/r" [] ["path:src"]
           ["path:src/vendor"] "glob" false None false false
           [("path", "src/vendor", "")]);
    [reflexivity | reflexivity | reflexivity | simpl; auto].
Defined.

Lemma include_roots_are_visited_witness :
  ∃ m, outcome (match_ (Ref.host []) 0 "/r" "/r" [] ["glob:src/lib/*.c"] [] "glob"
                       false None false false None) = Ok m
       ∧ visitdir m "." = VTrue
       ∧ visitdir m "src/lib" = VTrue
       ∧ visitdir m "src" = VTrue
       ∧ visitdir m "src/lib/deep" = VTrue
       ∧ visitdir m "doc" = VFalse.
Proof.
  eexists. split; [rewrite match_unfold; reflexivity|].
  destruct (include_roots_are_visited (Ref.host []) 0 "/r" "/r" ["glob:src/lib/*.c"]
              None false false [("glob", "src/lib/*.c", "")] _
              ltac:(discriminate) eq_refl eq_refl) as (Hdot & Hroots & _).
  destruct (Hroots "src/lib" ltac:(simpl; auto)) as (Hr & Hup & Hdown).
  split; [exact Hdot|]. split; [exact Hr|].
  split; [apply Hup; simpl; auto|]. split; [apply Hdown; simpl; auto|].
  vm_compute. reflexivity.
Defined.

(** ** Exact and prefix matchers *)

(** X8: a matcher for which [isexact()] holds has the patterns it was
    given as its files, matches a path exactly when the path is one of its
    files, answers [True] on [visitdir] for every ancestor of a path it
    matches, and never answers ['all']. *)
Theorem isexact_matches_files H fuel root cwd patterns include exclude default exact_
    ctx listsubrepos warn icasefs m :
  outcome (match_ H fuel root cwd patterns include exclude default exact_ ctx listsubrepos
                  warn icasefs) = Ok m →
  isexact m = true →
  files m = patterns
  ∧ (∀ p, matches m p = Ok (exact m p))
  ∧ (∀ p, matches m p = Ok true ↔ In p (files m))
  ∧ (∀ p d, matches m p = Ok true → In d (finddirs p) → visitdir m d = VTrue)
  ∧ (∀ d, visitdir m d ≠ VAll).
Proof.
  intros Hm He. rewrite match_unfold in Hm.
  apply bind_Ok in Hm as (o & Ho & Hm). apply ret_Ok in Hm. subst m.
  unfold matcher_init in Ho.
  destruct include; [|exfalso; inv_M; simplify_eq/=; discriminate].
  destruct exclude; [|exfalso; inv_M; simplify_eq/=; discriminate].
  destruct exact_; [|exfalso; inv_M; simplify_eq/=; discriminate].
  injection Ho as <-.
  assert (Hmatch : ∀ p, matches (Matcher
            {| o_root := root; o_cwd := cwd; o_files := patterns; o_anypats := false;
               o_always := false; o_pathrestricted := nonempty patterns;
               o_includeroots := ∅; o_excluderoots := ∅; o_includedirs := ∅;
               o_includepat := None; o_excludepat := None; o_patternspat := None;
               o_matchfn := OneFn ExactFn |}) p = Ok true ↔ In p patterns).
  { intros p. unfold matches, matchfn, call_matchfunc, _fileset. cbn [files o_files o_matchfn].
    rewrite <- list_elem_of_In, <- (elem_of_list_to_set (C := gset string)).
    split; [intros [= Hp]; apply bool_decide_eq_true in Hp; exact Hp
           | intros Hp; f_equal; apply bool_decide_eq_true; exact Hp]. }
  split; [reflexivity|]. split; [reflexivity|]. split; [exact Hmatch|]. split.
  - intros p d Hp Hd. injection Hp as Hp. apply bool_decide_eq_true in Hp.
    pose proof (elem_of_matcher_dirs _ _ _ Hp (proj2 (list_elem_of_In _ _) Hd)) as Hdirs.
    cbn [visitdir]. unfold matcher_visitdir.
    change (prefix _) with false. cbn [andb o_excluderoots o_includeroots o_includedirs].
    rewrite (bool_decide_eq_false_2 (d ∈ (∅ : gset string))) by apply not_elem_of_empty.
    rewrite (bool_decide_eq_false_2 ((∅ : gset string) ≠ ∅))
      by (intros Hne; apply Hne; reflexivity).
    cbn [orb andb]. rewrite (bool_decide_eq_true_2 _ Hdirs), !orb_true_r. reflexivity.
  - intros d. cbn [visitdir]. unfold matcher_visitdir. change (prefix _) with false.
    cbn [andb]. destruct (bool_decide _); [discriminate|]. destruct (_ && _); [discriminate|].
    destruct (_ || _); discriminate.
Qed.

Lemma isexact_matches_files_witness :
  ∃ m, outcome (match_exact (Ref.host []) 0 "/r" "/r" ["a"; "b/c/d"]) = Ok m
       ∧ files m = ["a"; "b/c/d"]
       ∧ matches m "b/c/d" = Ok true
       ∧ matches m "b/c" = Ok false
       ∧ visitdir m "b/c" = VTrue
       ∧ visitdir m "b" = VTrue.
Proof.
  eexists. split; [unfold match_exact; rewrite match_unfold; reflexivity|].
  destruct (isexact_matches_files (Ref.host []) 0 "/r" "/r" ["a"; "b/c/d"] [] [] "glob" true
              None false false None _ eq_refl eq_refl) as (Hf & _ & Hin & Hvis & _).
  split; [exact Hf|].
  assert (Hm : matches (Matcher
            {| o_root := "/r"; o_cwd := "/r"; o_files := ["a"; "b/c/d"]; o_anypats := false;
               o_always := false; o_pathrestricted := true;
               o_includeroots := ∅; o_excluderoots := ∅; o_includedirs := ∅;
               o_includepat := None; o_excludepat := None; o_patternspat := None;
               o_matchfn := OneFn ExactFn |}) "b/c/d" = Ok true).
  { apply Hin. simpl. auto. }
  split; [exact Hm|]. split; [vm_compute; reflexivity|].
  split; apply (Hvis "b/c/d"); try exact Hm; simpl; auto.
Defined.

Lemma explicitfiles_without_anypats (kindpats : list kindpat) :
  _anypats kindpats = false → length (_explicitfiles kindpats) = length kindpats.
Proof.
  unfold _explicitfiles, _roots, _anypats.
  induction kindpats as [|[[k p] s] kps IH]; [reflexivity|].
  cbn [existsb fst]. intros Hany. apply orb_false_elim in Hany as [Hk Hany].
  specialize (IH Hany). cbn [List.filter fst].
  assert (Hr : str_in k ["rootfilesin"] = false).
  { unfold str_in in *. simpl in *. repeat (apply orb_false_elim in Hk as [? Hk]).
    rewrite orb_false_r. destruct (String.eqb k "rootfilesin"); [discriminate | reflexivity]. }
  rewrite Hr. cbn [negb _patternrootsanddirs].
  destruct (_patternrootsanddirs _) as [r d]. cbn [fst] in IH.
  destruct (String.eqb k "glob"); [simpl; lia|].
  destruct (str_in k ["relpath"; "path"]); [simpl; lia|].
  rewrite Hr. simpl. lia.
Qed.

(** X9: a matcher for which [prefix()] holds was built from patterns
    alone (no include, no exclude, not exact), has files, and its
    [visitdir] answers ['all'] exactly for the directories that are among
    its files. *)
Theorem prefix_matcher_lists_files H fuel root cwd patterns include exclude default exact_
    ctx listsubrepos warn icasefs m :
  outcome (match_ H fuel root cwd patterns include exclude default exact_ ctx listsubrepos
                  warn icasefs) = Ok m →
  prefix m = true →
  files m ≠ []
  ∧ include = [] ∧ exclude = [] ∧ exact_ = false
  ∧ (∀ d, visitdir m d = VAll ↔ In d (files m)).
Proof.
  intros Hm Hp. rewrite match_unfold in Hm.
  apply bind_Ok in Hm as (o & Ho & Hm). apply ret_Ok in Hm. subst m.
  unfold matcher_init in Ho.
  destruct include; [|exfalso; inv_M; simplify_eq/=; discriminate].
  destruct exclude; [|exfalso; inv_M; simplify_eq/=; discriminate].
  destruct exact_; [exfalso; inv_M; simplify_eq/=; discriminate|].
  cbn [nonempty orb] in Ho.
  inv_M; simplify_eq/=; try discriminate.
  match goal with |- context [Matcher ?r] => remember r as o eqn:Ho end.
  assert (Hany : o_anypats o = false).
  { unfold prefix in Hp. cbn [anypats always isexact] in Hp. subst o.
    cbn [o_anypats o_always o_matchfn negb andb] in *. apply negb_true_iff in Hp. exact Hp. }
  assert (Hfiles : o_files o ≠ []).
  { subst o. cbn [o_files o_anypats] in *. intros Hnil.
    apply (f_equal length) in Hnil. rewrite explicitfiles_without_anypats in Hnil by exact Hany.
    match goal with Hk : negb (_kindpatsalwaysmatch ?x) = true |- _ =>
      destruct x; [discriminate Hk | discriminate Hnil] end. }
  subst o. cbn [o_files] in Hfiles.
  split; [exact Hfiles|]. repeat (split; [reflexivity|]).
  intros d. unfold matcher_visitdir. rewrite Hp. cbn [andb].
  unfold _fileset. cbn [files]. split.
  - destruct (bool_decide (d ∈ _)) eqn:Hd.
    + intros _. apply bool_decide_eq_true, elem_of_list_to_set, list_elem_of_In in Hd. exact Hd.
    + destruct (bool_decide _); [discriminate|]. destruct (_ && _); [discriminate|].
      destruct (_ || _); discriminate.
  - intros Hd. rewrite bool_decide_in_list_to_set by exact Hd. reflexivity.
Qed.

Lemma prefix_matcher_lists_files_witness :
  ∃ m, outcome (match_ (Ref.host []) 0 "/r" "/r" ["path:src"; "path:doc/api"] [] [] "glob"
                       false None false false None) = Ok m
       ∧ files m = ["src"; "doc/api"]
       ∧ visitdir m "src" = VAll
       ∧ visitdir m "doc" = VTrue.
Proof.
  eexists. split; [rewrite match_unfold; reflexivity|]. split; [reflexivity|].
  split; [|vm_compute; reflexivity].
  apply (prefix_matcher_lists_files (Ref.host []) 0 "/r" "/r" ["path:src"; "path:doc/api"]
           [] [] "glob" false None false false None _ eq_refl eq_refl).
  simpl. auto.
Defined.

(** ** Matchers that match everything or nothing *)

(** X10: when the patterns normalize to empty [relpath] or [glob]
    patterns only, and there are no include and exclude patterns and no
    [icasefs], the matcher is built, [always()] holds, [anypats()] does
    not, there are no files, every path matches and every directory is
    visited. *)
Theorem alwaysmatch_patterns_give_always H fuel root cwd patterns default ctx listsubrepos
    warn kindpats :
  outcome (_donormalize H fuel patterns default root cwd warn) = Ok kindpats →
  _kindpatsalwaysmatch kindpats = true →
  ∃ m, outcome (match_ H fuel root cwd patterns [] [] default false ctx listsubrepos warn None)
       = Ok m
       ∧ always m = true ∧ anypats m = false ∧ files m = []
       ∧ (∀ p, matches m p = Ok true)
       ∧ (∀ d, visitdir m d = VTrue).
Proof.
  intros Hnorm Hall. destruct patterns as [|p patterns].
  - eexists. split.
    { rewrite match_unfold. unfold matcher_init. cbn [nonempty orb].
      rewrite !M_ret_bind. reflexivity. }
    repeat split; intros d; visit_sets.
  - eexists. split.
    { rewrite match_unfold. unfold matcher_init. cbn [nonempty orb].
      rewrite !M_ret_bind, !M_bind_assoc.
      rewrite (outcome_bind_Ok _ _ _ Hnorm). rewrite Hall. cbn [negb].
      rewrite !M_ret_bind. reflexivity. }
    repeat split; intros d; visit_sets.
Qed.

Lemma alwaysmatch_patterns_give_always_witness :
  ∃ m, outcome (match_ (Ref.host []) 0 "/r" "/r" ["relpath:."; "glob:."] [] [] "glob" false
                       None false false None) = Ok m
       ∧ always m = true ∧ (∀ p, matches m p = Ok true).
Proof.
  destruct (alwaysmatch_patterns_give_always (Ref.host []) 0 "/r" "/r"
              ["relpath:."; "glob:."] "glob" None false false
              [("relpath", "", ""); ("glob", "", "")] eq_refl eq_refl)
    as (m & Hm & Ha & _ & _ & Hp & _).
  exists m. auto.
Defined.

Lemma existsb_in_empty (l : list string) :
  existsb (λ p, bool_decide (p ∈ (∅ : gset string))) l = false.
Proof.
  induction l as [|x l IH]; [reflexivity|]. cbn [existsb].
  rewrite IH, (bool_decide_eq_false_2 (x ∈ (∅ : gset string))) by apply not_elem_of_empty.
  reflexivity.
Qed.

(** X11: an include pattern that names an unreadable file does not stop
    the construction (without [icasefs]): the matcher is built, the warning is sent when there
    is someone to warn and nothing else is, no path matches, and only the
    top directory is visited. *)
Theorem unreadable_include_matches_nothing H fuel root cwd f ctx listsubrepos warn e :
  readfile H (pathjoin H root (localpath H f)) = FileError e →
  ∃ m, match_ H fuel root cwd [] ["include:" +:+ f] [] "glob" false ctx listsubrepos warn None
       = MkM (Ok m)
             (if warn
              then ["skipping unreadable pattern file '" +:+ f +:+ "': " +:+ e +:+ nl]
              else [])
       ∧ always m = false
       ∧ (∀ p, matches m p = Ok false)
       ∧ visitdir m "." = VTrue
       ∧ (∀ d, d ≠ "." → visitdir m d = VFalse).
Proof.
  intros Hread.
  assert (Hn : _donormalize H fuel ["include:" +:+ f] "glob" root cwd warn
               = MkM (Ok [])
                     (if warn
                      then ["skipping unreadable pattern file '" +:+ f +:+ "': " +:+ e +:+ nl]
                      else [])).
  { rewrite donormalize_unfold. cbn [donormalize_loop]. unfold normalize_pattern. simpl.
    change ("" +:+ f) with f. unfold readpatternfile, readpatternfile_sourceinfo.
    rewrite Hread. destruct warn; reflexivity. }
  assert (Hb : ∀ sub, _buildmatch H sub ctx [] "(?:/|$)" listsubrepos root
                      = Ok ("", any_match [])).
  { intros sub. unfold _buildmatch. cbn [_expandsubinclude _expandsets mbind res_bind].
    rewrite (bool_decide_eq_false_2 ((∅ : gset string) ≠ ∅))
      by (intros Hne; apply Hne; reflexivity).
    reflexivity. }
  eexists. split.
  { rewrite match_unfold. unfold matcher_init. cbn [nonempty orb]. rewrite Hn.
    apply M_eq.
    - unfold mbind, M_bind. cbn [outcome]. rewrite Hb. reflexivity.
    - unfold mbind, M_bind. cbn [outcome warnings]. rewrite Hb. cbn [outcome warnings lift].
      destruct warn; reflexivity. }
  split; [reflexivity|]. split; [reflexivity|]. split.
  - vm_compute. reflexivity.
  - intros d Hd. cbn [visitdir]. rewrite visitdir_without_files by reflexivity.
    cbn [o_includeroots o_includedirs].
    change (_rootsanddirs []) with (@nil string, ["."]).
    change (list_to_set [] : gset string) with (∅ : gset string).
    rewrite existsb_in_empty.
    rewrite !(bool_decide_eq_false_2 (_ ∈ (∅ : gset string))) by apply not_elem_of_empty.
    rewrite (bool_decide_eq_false_2 (d ∈ (list_to_set ["."] : gset string))).
    2:{ rewrite elem_of_list_to_set, elem_of_cons, elem_of_nil. tauto. }
    rewrite (bool_decide_eq_true_2 ((list_to_set ["."] : gset string) ≠ ∅)).
    2:{ intros Hemp. apply (not_elem_of_empty (C := gset string) ".").
        rewrite <- Hemp, elem_of_list_to_set, elem_of_cons. auto. }
    rewrite orb_true_r. reflexivity.
Qed.

Lemma unreadable_include_matches_nothing_witness :
  ∃ m, outcome (match_ (Ref.host []) 0 "/r" "/r" [] ["include:missing"] [] "glob" false None
                       false true None) = Ok m
       ∧ matches m "a" = Ok false
       ∧ visitdir m "src" = VFalse.
Proof.
  destruct (unreadable_include_matches_nothing (Ref.host []) 0 "/r" "/r" "missing" None false
              true "No such file or directory" eq_refl) as (m & Hm & _ & Hp & _ & Hv).
  exists m. split; [exact (f_equal outcome Hm)|]. split; [apply Hp|].
  apply Hv. discriminate.
Defined.

(** ** Files of subdirectory matchers *)

Lemma startswith_app_both (p r q : string) :
  Py.startswith (p +:+ r) (p +:+ q) = Py.startswith r q.
Proof.
  induction p as [|a p IH]; [reflexivity|].
  change (String a p +:+ r) with (String a (p +:+ r)).
  change (String a p +:+ q) with (String a (p +:+ q)).
  cbn [Py.startswith]. rewrite Ascii.eqb_refl. exact IH.
Qed.

Lemma startswith_app (p r : string) : Py.startswith (p +:+ r) p = true.
Proof.
  rewrite <- (str_app_nil_r p) at 2. rewrite startswith_app_both.
  destruct r; reflexivity.
Qed.

Lemma drop_app (p r : string) : Py.drop (String.length p) (p +:+ r) = r.
Proof. induction p as [|a p IH]; [destruct r; reflexivity | exact IH]. Qed.

Lemma str_length_app (p r : string) :
  String.length (p +:+ r) = String.length p + String.length r.
Proof.
  induction p as [|a p IH]; [reflexivity|].
  change (String a p +:+ r) with (String a (p +:+ r)). simpl. rewrite IH. reflexivity.
Qed.

Lemma strip_prefix_spec (P f x : string) :
  Py.startswith f (P +:+ "/") = true ∧ x = Py.drop (String.length P + 1) f
  ↔ f = P +:+ "/" +:+ x.
Proof.
  replace (String.length P + 1) with (String.length (P +:+ "/"))
    by (rewrite str_length_app; reflexivity).
  split.
  - intros [Hs ->]. apply startswith_inv in Hs as [r ->].
    rewrite drop_app, str_app_assoc. reflexivity.
  - intros ->. rewrite <- str_app_assoc, startswith_app, drop_app. auto.
Qed.

(** X12: the files of a subdirectory matcher are the files of the
    matcher below the directory, with the directory taken off: [x] is one
    of them exactly when [P/x] is a file of the matcher, [exact] agrees, the
    [anypats] flag is kept and the subdirectory matcher is never exact. *)
Theorem subdirmatcher_files (M : matcher) (P x : string) :
  (In x (files (subdirmatcher P M)) ↔ In (P +:+ "/" +:+ x) (files M))
  ∧ exact (subdirmatcher P M) x = exact M (P +:+ "/" +:+ x)
  ∧ anypats (subdirmatcher P M) = anypats M
  ∧ isexact (subdirmatcher P M) = false.
Proof.
  assert (Hin : In x (files (subdirmatcher P M)) ↔ In (P +:+ "/" +:+ x) (files M)).
  { cbn [subdirmatcher files]. rewrite in_map_iff. split.
    - intros (f & Hx & Hf). apply filter_In in Hf as [Hf Hs].
      rewrite <- (proj1 (strip_prefix_spec P f x)); [exact Hf | auto].
    - intros Hf. exists (P +:+ "/" +:+ x).
      destruct (proj2 (strip_prefix_spec P (P +:+ "/" +:+ x) x) eq_refl) as [Hs Hx].
      split; [symmetry; exact Hx | apply filter_In; auto]. }
  split; [exact Hin|]. split; [|split; reflexivity].
  unfold exact, _fileset. apply bool_decide_ext.
  rewrite !elem_of_list_to_set, !list_elem_of_In. exact Hin.
Qed.

Lemma no_slash_dot (a b : string) : a +:+ "/" +:+ b ≠ ".".
Proof.
  intros Heq. apply (f_equal (Py.has_char "/")) in Heq.
  rewrite has_char_app in Heq. simpl in Heq. rewrite orb_true_r in Heq. discriminate.
Qed.

Lemma drop_dir (P r : string) : Py.drop (String.length P + 1) ((P +:+ "/") +:+ r) = r.
Proof.
  replace (String.length P + 1) with (String.length (P +:+ "/"))
    by (rewrite str_length_app; reflexivity).
  apply drop_app.
Qed.

Lemma startswith_dir_dir (P1 P2 r : string) :
  Py.startswith ((P1 +:+ "/") +:+ r) ((P1 +:+ "/" +:+ P2) +:+ "/")
  = Py.startswith r (P2 +:+ "/").
Proof.
  replace ((P1 +:+ "/" +:+ P2) +:+ "/") with ((P1 +:+ "/") +:+ (P2 +:+ "/"))
    by (rewrite !str_app_assoc; reflexivity).
  apply startswith_app_both.
Qed.

Lemma drop_dir_dir (P1 P2 t : string) :
  Py.drop (String.length (P1 +:+ "/" +:+ P2) + 1) ((P1 +:+ "/") +:+ (P2 +:+ "/") +:+ t) = t.
Proof.
  replace (String.length (P1 +:+ "/" +:+ P2) + 1)
    with (String.length ((P1 +:+ "/") +:+ (P2 +:+ "/")))
    by (rewrite !str_length_app; simpl; lia).
  rewrite <- (str_app_assoc (P1 +:+ "/") (P2 +:+ "/") t). apply drop_app.
Qed.

Lemma nested_strip (P1 P2 : string) (fs : list string) :
  map (Py.drop (String.length P2 + 1))
      (List.filter (λ f, Py.startswith f (P2 +:+ "/"))
         (map (Py.drop (String.length P1 + 1))
              (List.filter (λ f, Py.startswith f (P1 +:+ "/")) fs)))
  = map (Py.drop (String.length (P1 +:+ "/" +:+ P2) + 1))
        (List.filter (λ f, Py.startswith f ((P1 +:+ "/" +:+ P2) +:+ "/")) fs).
Proof.
  induction fs as [|f fs IH]; [reflexivity|]. cbn [List.filter].
  destruct (Py.startswith f (P1 +:+ "/")) eqn:H1.
  - apply startswith_inv in H1 as [r ->]. cbn [map List.filter].
    rewrite drop_dir, startswith_dir_dir.
    destruct (Py.startswith r (P2 +:+ "/")) eqn:H2; [|exact IH].
    cbn [map]. rewrite IH. f_equal.
    apply startswith_inv in H2 as [t ->].
    rewrite drop_dir, drop_dir_dir. reflexivity.
  - destruct (Py.startswith f ((P1 +:+ "/" +:+ P2) +:+ "/")) eqn:H3; [|exact IH].
    exfalso. apply startswith_inv in H3 as [t ->].
    rewrite !str_app_assoc in H1. rewrite <- (str_app_assoc P1 "/") in H1.
    rewrite startswith_app in H1. discriminate.
Qed.

(** X13: a subdirectory matcher of a subdirectory matcher is the
    subdirectory matcher of the joined path: the same paths match, the same
    directories are visited and the files are the same. *)
Theorem subdirmatcher_nested (M : matcher) (P1 P2 f d : string) :
  P2 ≠ "." →
  matches (subdirmatcher P2 (subdirmatcher P1 M)) f
  = matches (subdirmatcher (P1 +:+ "/" +:+ P2) M) f
  ∧ visitdir (subdirmatcher P2 (subdirmatcher P1 M)) d
    = visitdir (subdirmatcher (P1 +:+ "/" +:+ P2) M) d
  ∧ files (subdirmatcher P2 (subdirmatcher P1 M))
    = files (subdirmatcher (P1 +:+ "/" +:+ P2) M).
Proof.
  intros HP2. split; [|split].
  - cbn [subdirmatcher matches matchfn]. rewrite !str_app_assoc. reflexivity.
  - cbn [subdirmatcher visitdir]. destruct (String.eqb_spec d ".") as [->|Hd].
    + destruct (String.eqb_spec P2 "."); [contradiction | reflexivity].
    + destruct (String.eqb_spec (P2 +:+ "/" +:+ d) ".") as [He|_];
        [exfalso; exact (no_slash_dot _ _ He)|].
      rewrite !str_app_assoc. reflexivity.
  - cbn [subdirmatcher files]. apply nested_strip.
Qed.

Lemma subdirmatcher_nested_witness :
  ∃ M, outcome (match_ (Ref.host []) 0 "/r" "/r" ["path:a/b/c.txt"; "path:a/x"] [] [] "glob"
                       false None false false None) = Ok M
       ∧ files (subdirmatcher "b" (subdirmatcher "a" M)) = ["c.txt"]
       ∧ files (subdirmatcher "a/b" M) = ["c.txt"]
       ∧ matches (subdirmatcher "b" (subdirmatcher "a" M)) "c.txt" = Ok true.
Proof.
  eexists. split; [rewrite match_unfold; reflexivity|].
  split; [|split; [reflexivity|]].
  - etransitivity;
      [exact (proj2 (proj2 (subdirmatcher_nested _ "a" "b" "" "" ltac:(discriminate))))|].
    reflexivity.
  - etransitivity;
      [exact (proj1 (subdirmatcher_nested _ "a" "b" "c.txt" "" ltac:(discriminate)))|].
    vm_compute. reflexivity.
Defined.

(** ** What a pattern file yields *)

Lemma assoc_syntaxes_prefix s syn : assoc s syntaxes = Some syn → In syn pattern_prefixes.
Proof.
  unfold syntaxes. cbn [assoc].
  repeat (destruct (String.eqb s _); [intros [= <-]; simpl; tauto|]). discriminate.
Qed.

Lemma first_fire_prefix tbl line r :
  (∀ e, In e tbl → In (snd e) pattern_prefixes) →
  first_fire tbl line = Some r → In (fst r) pattern_prefixes.
Proof.
  induction tbl as [|[s rels] tbl IH]; intros Htbl; [discriminate|].
  cbn [first_fire entry_fires].
  pose proof (Htbl (s, rels) (or_introl eq_refl)) as Hrels. cbn [snd] in Hrels.
  destruct (Py.startswith line rels); [intros [= <-]; exact Hrels|].
  destruct (Py.startswith line (s +:+ ":")); [intros [= <-]; exact Hrels|].
  apply IH. intros e He. apply Htbl. right. exact He.
Qed.

Lemma linesyntax_loop_prefix syntax line :
  In syntax pattern_prefixes →
  In (fst (linesyntax_loop syntaxes syntax line)) pattern_prefixes.
Proof.
  intros Hs. rewrite linesyntax_loop_fires.
  destruct (first_fire syntaxes line) as [r|] eqn:Hf; [|exact Hs].
  apply (first_fire_prefix syntaxes line r); [|exact Hf].
  unfold syntaxes. simpl. intros e He. destruct_or!; subst; simpl; tauto.
Qed.

Lemma readpattern_loop_prefixes filepath warn lines :
  ∀ syntax lineno, In syntax pattern_prefixes →
  ∃ l, outcome (readpattern_loop filepath warn syntax lineno lines) = Ok l
       ∧ length l ≤ length lines
       ∧ Forall (λ t : string * nat * string,
                   (∃ pre, In pre pattern_prefixes ∧ t.1.1 = pre +:+ t.2)
                   ∧ lineno ≤ t.1.2 < lineno + length lines) l.
Proof.
  induction lines as [|line lines IH]; intros syntax lineno Hs.
  - exists []. split; [reflexivity | split; [reflexivity | constructor]].
  - cbn [readpattern_loop].
    assert (Hweak : ∀ syn, In syn pattern_prefixes →
              ∃ l, outcome (readpattern_loop filepath warn syn (S lineno) lines) = Ok l
                   ∧ length l ≤ length lines
                   ∧ Forall (λ t : string * nat * string,
                       (∃ pre, In pre pattern_prefixes ∧ t.1.1 = pre +:+ t.2)
                       ∧ lineno ≤ t.1.2 < lineno + length (line :: lines)) l).
    { intros syn Hsyn. destruct (IH syn (S lineno) Hsyn) as (l & Hl & Hlen & Hall).
      exists l. split; [exact Hl|]. split; [exact Hlen|]. eapply Forall_impl; [exact Hall|].
      cbn [length]. intros t [Hp Hn]. split; [exact Hp | lia]. }
    assert (Hskip : ∀ syn, In syn pattern_prefixes →
              ∃ l, outcome (readpattern_loop filepath warn syn (S lineno) lines) = Ok l
                   ∧ length l ≤ length (line :: lines)
                   ∧ Forall (λ t : string * nat * string,
                       (∃ pre, In pre pattern_prefixes ∧ t.1.1 = pre +:+ t.2)
                       ∧ lineno ≤ t.1.2 < lineno + length (line :: lines)) l).
    { intros syn Hsyn. destruct (Hweak syn Hsyn) as (l & Hl & Hlen & Hall).
      exists l. cbn [length]. split; [exact Hl|]. split; [lia | exact Hall]. }
    destruct (String.eqb (clean_line line) ""); [apply Hskip, Hs|].
    destruct (Py.startswith (clean_line line) "syntax:").
    + destruct (assoc _ syntaxes) as [syn|] eqn:Ha.
      * apply Hskip. eapply assoc_syntaxes_prefix, Ha.
      * destruct (Hskip syntax Hs) as (l & Hl & Hall). exists l. split; [|exact Hall].
        unfold mbind, M_bind. cbn [outcome do_warn]. exact Hl.
    + pose proof (linesyntax_loop_prefix syntax (clean_line line) Hs) as Hpre.
      destruct (linesyntax_loop syntaxes syntax (clean_line line)) as [ls line'].
      cbn [fst] in Hpre. destruct (Hweak syntax Hs) as (l & Hl & Hlen & Hall).
      exists ((ls +:+ line', lineno, line') :: l). split; [|split].
      * unfold mbind, M_bind. rewrite Hl. reflexivity.
      * cbn [length]. lia.
      * constructor; [|exact Hall]. cbn [fst snd length]. split; [eauto | lia].
Qed.

Lemma prefixed_pattern_kind pre rest default :
  In pre pattern_prefixes →
  In (fst (_patsplit (pre +:+ rest) default))
     ["relre"; "relglob"; "include"; "subinclude"; default].
Proof.
  intros Hpre. destruct (_patsplit (pre +:+ rest) default) as [kind pat] eqn:Hsplit.
  cbn [fst]. apply patsplit_lossless_aux in Hsplit as [[Hk Heq] | [-> _]];
    [|simpl; tauto].
  unfold pattern_prefixes in Hpre. unfold known_kinds in Hk. simpl in Hpre, Hk.
  destruct_or! Hpre; try contradiction; subst pre;
    destruct_or! Hk; try contradiction; subst kind;
    first [ simpl; tauto | exfalso; vm_compute in Heq; discriminate Heq ].
Qed.

(** X14: [readpatternfile] raises [IOError] exactly when the file cannot
    be read.  Otherwise it returns at most one pattern per line, each with
    the number of its line, and every pattern is [relre:], [relglob:],
    [include] or [subinclude] followed by the rest of the line; split with
    any default, its kind is [relre], [relglob], [include], [subinclude] or
    the default, never a list file, a path or a fileset. *)
Theorem readpatternfile_patterns H filepath warn :
  match readfile H filepath with
  | FileError e =>
      outcome (readpatternfile H filepath warn) = Raise (IOError e)
      ∧ outcome (readpatternfile_sourceinfo H filepath warn) = Raise (IOError e)
  | FileData content =>
      ∃ l, outcome (readpatternfile_sourceinfo H filepath warn) = Ok l
           ∧ outcome (readpatternfile H filepath warn) = Ok (map (λ t, t.1.1) l)
           ∧ length l ≤ length (Py.iterlines content)
           ∧ ∀ p n line, In (p, n, line) l →
               1 ≤ n ≤ length (Py.iterlines content)
               ∧ (∃ pre, In pre pattern_prefixes ∧ p = pre +:+ line)
               ∧ ∀ default, In (fst (_patsplit p default))
                               ["relre"; "relglob"; "include"; "subinclude"; default]
  end.
Proof.
  unfold readpatternfile, readpatternfile_sourceinfo.
  destruct (readfile H filepath) as [content|e]; [|split; reflexivity].
  destruct (readpattern_loop_prefixes filepath warn (Py.iterlines content) "relre:" 1)
    as (l & Hl & Hlen & Hall); [simpl; tauto|].
  exists l. split; [exact Hl|]. split; [|split; [exact Hlen|]].
  - unfold mbind, M_bind. rewrite Hl. reflexivity.
  - intros p n line Hin. rewrite Forall_forall in Hall.
    destruct (Hall _ (proj2 (list_elem_of_In _ _) Hin)) as [(pre & Hpre & Heq) Hn].
    cbn [fst snd] in Heq, Hn. split; [lia|]. split; [eauto|].
    intros default. rewrite Heq. apply prefixed_pattern_kind, Hpre.
Qed.

(** ** Comments in pattern files *)

Lemma plain_char_inv a :
  plain_char a = true → Ascii.eqb a "#" = false ∧ Ascii.eqb a "\" = false.
Proof.
  unfold plain_char. intros Ha. apply andb_true_iff in Ha as [Hh Hb].
  apply negb_true_iff in Hh, Hb. auto.
Qed.

Lemma count_backslashes_plain a s :
  Ascii.eqb a "\" = false → count_backslashes (String a s) = 0.
Proof.
  intros Hb. cbn [count_backslashes].
  destruct a as [[] [] [] [] [] [] [] []]; try reflexivity. discriminate Hb.
Qed.

Lemma pairs_then_hash_plain a s :
  plain_char a = true → pairs_then_hash (String a s) = None.
Proof.
  intros Ha. apply plain_char_inv in Ha as [Hh Hb]. unfold pairs_then_hash.
  rewrite (count_backslashes_plain a s Hb).
  cbn [Nat.even andb Py.char_at Py.drop Py.take].
  change (String a "" =? "#")%string with (Ascii.eqb a "#" && true).
  rewrite Hh. reflexivity.
Qed.

Lemma pairs_then_hash_all_plain s :
  all_chars plain_char s = true → pairs_then_hash s = None.
Proof.
  destruct s as [|a s]; [reflexivity|]. cbn [all_chars]. intros Hs.
  apply andb_prop in Hs as [Ha _]. apply pairs_then_hash_plain, Ha.
Qed.

Lemma has_char_plain c s :
  (c = "#" ∨ c = "\")%char → all_chars plain_char s = true → Py.has_char c s = false.
Proof.
  intros Hc. induction s as [|a s IH]; [reflexivity|]. cbn [all_chars Py.has_char].
  intros Hs. apply andb_prop in Hs as [Ha Hs]. rewrite (IH Hs), orb_false_r.
  apply plain_char_inv in Ha as [Hh Hb]. destruct Hc; subst c; assumption.
Qed.

Lemma commentre_scan_plain s pos :
  all_chars plain_char s = true → commentre_scan pos s = None.
Proof.
  revert pos. induction s as [|a s IH]; intros pos; [reflexivity|].
  cbn [all_chars commentre_scan]. intros Hs. apply andb_prop in Hs as [Ha Hs].
  rewrite (pairs_then_hash_all_plain s Hs), (IH _ Hs).
  destruct (Ascii.eqb a "\"); reflexivity.
Qed.

Lemma commentre_scan_comment t c pos :
  all_chars plain_char t = true → t ≠ "" →
  commentre_scan pos (t +:+ String "#" c) = Some (pos + String.length t).
Proof.
  revert pos. induction t as [|a t IH]; intros pos Ht Hne; [contradiction|].
  cbn [all_chars] in Ht. apply andb_prop in Ht as [Ha Ht].
  change (String a t +:+ String "#" c) with (String a (t +:+ String "#" c)).
  cbn [commentre_scan String.length].
  destruct (plain_char_inv a Ha) as [_ ->].
  destruct t as [|b t].
  - change ("" +:+ String "#" c) with (String "#" c).
    change (pairs_then_hash (String "#" c)) with (Some 0). f_equal. simpl. lia.
  - change (String b t +:+ String "#" c) with (String b (t +:+ String "#" c)).
    cbn [all_chars] in Ht. pose proof Ht as Ht'. apply andb_prop in Ht' as [Hb _].
    rewrite (pairs_then_hash_plain b _ Hb).
    change (String b (t +:+ String "#" c)) with (String b t +:+ String "#" c).
    rewrite IH by (assumption || discriminate). f_equal. cbn [String.length]. lia.
Qed.

Lemma take_app_length (t r : string) : Py.take (String.length t) (t +:+ r) = t.
Proof.
  induction t as [|a t IH]; [destruct r; reflexivity|].
  change (String a t +:+ r) with (String a (t +:+ r)).
  cbn [String.length Py.take]. rewrite IH. reflexivity.
Qed.

Lemma replace2_plain (b t : string) :
  all_chars plain_char t = true → Py.replace2 "\" "#" b t = t.
Proof.
  induction t as [|a t IH]; [reflexivity|]. cbn [all_chars]. intros Ht.
  apply andb_prop in Ht as [Ha Ht]. cbn [Py.replace2].
  destruct t as [|d t]; [reflexivity|].
  destruct (plain_char_inv a Ha) as [_ ->]. cbn [andb]. rewrite (IH Ht). reflexivity.
Qed.

Lemma replace2_cons (a1 a2 : ascii) (b : string) (c d : ascii) (s : string) :
  Py.replace2 a1 a2 b (String c (String d s))
  = if Ascii.eqb c a1 && Ascii.eqb d a2 then b +:+ Py.replace2 a1 a2 b s
    else String c (Py.replace2 a1 a2 b (String d s)).
Proof. reflexivity. Qed.

Lemma replace2_escaped (u c : string) :
  all_chars plain_char u = true → all_chars plain_char c = true →
  Py.replace2 "\" "#" "#" (u +:+ String "\" (String "#" c)) = u +:+ String "#" c.
Proof.
  intros Hu Hc. induction u as [|a u IH].
  - change ("" +:+ String "\" (String "#" c)) with (String "\" (String "#" c)).
    rewrite replace2_cons. change (Ascii.eqb "\" "\" && Ascii.eqb "#" "#") with true.
    cbv iota. rewrite (replace2_plain "#" c Hc). reflexivity.
  - cbn [all_chars] in Hu. apply andb_prop in Hu as [Ha Hu]. specialize (IH Hu).
    change (String a u +:+ ?r) with (String a (u +:+ r)).
    destruct (plain_char_inv a Ha) as [_ Hb].
    assert (Hur : ∃ d r, u +:+ String "\" (String "#" c) = String d r).
    { destruct u as [|d u']; [exists "\"%char | exists d]; eexists; reflexivity. }
    destruct Hur as (d & r & Hur). rewrite Hur in IH |- *.
    rewrite replace2_cons, Hb. cbn [andb]. rewrite IH. reflexivity.
Qed.

Lemma commentre_scan_escaped (u c : string) pos :
  all_chars plain_char u = true → all_chars plain_char c = true →
  commentre_scan pos (u +:+ String "\" (String "#" c)) = None.
Proof.
  intros Hu Hc. revert pos. induction u as [|a u IH]; intros pos.
  - change ("" +:+ ?r) with r. cbn [commentre_scan].
    change (Ascii.eqb "\" "\") with true. change (Ascii.eqb "#" "\") with false.
    cbv iota. rewrite (pairs_then_hash_all_plain c Hc). apply commentre_scan_plain, Hc.
  - cbn [all_chars] in Hu. apply andb_prop in Hu as [Ha Hu].
    change (String a u +:+ ?r) with (String a (u +:+ r)).
    cbn [commentre_scan]. destruct (plain_char_inv a Ha) as [_ ->].
    rewrite (IH Hu). destruct u as [|b u].
    + change ("" +:+ ?r) with r. reflexivity.
    + cbn [all_chars] in Hu. apply andb_prop in Hu as [Hb _].
      change (String b u +:+ ?r) with (String b (u +:+ r)).
      rewrite (pairs_then_hash_plain b _ Hb). reflexivity.
Qed.

(** X15: what the reader of pattern files keeps of a line.  For a text
    [t] without [#] and without backslash: the line [t] is [t] without its
    trailing white space; in [t#rest] all of [#rest] is a comment; and in
    [t\#c] the escaped [#] is part of the pattern, without its backslash. *)
Theorem comment_stripping (t c : string) :
  all_chars plain_char t = true →
  clean_line t = Py.rstrip t
  ∧ (∀ rest, clean_line (t +:+ "#" +:+ rest) = Py.rstrip t)
  ∧ (all_chars plain_char c = true →
     clean_line (t +:+ "\#" +:+ c) = Py.rstrip (t +:+ "#" +:+ c)).
Proof.
  intros Ht. split; [|split].
  - unfold clean_line. rewrite (has_char_plain "#" t) by auto. reflexivity.
  - intros rest. unfold clean_line. change ("#" +:+ rest) with (String "#" rest).
    assert (Hh : Py.has_char "#" (t +:+ String "#" rest) = true).
    { rewrite has_char_app. cbn [Py.has_char].
      change (Ascii.eqb "#" "#") with true. rewrite orb_true_r. reflexivity. }
    rewrite Hh.
    assert (He : commentre_end1 (t +:+ String "#" rest) = Some (String.length t)).
    { unfold commentre_end1. destruct t as [|a t'] eqn:Et.
      - reflexivity.
      - rewrite <- Et in *. assert (Hne : t ≠ "") by (rewrite Et; discriminate).
        replace (pairs_then_hash (t +:+ String "#" rest)) with (@None nat).
        + rewrite (commentre_scan_comment t rest 0 Ht Hne). reflexivity.
        + rewrite Et. change (String a t' +:+ ?r) with (String a (t' +:+ r)).
          rewrite Et in Ht. cbn [all_chars] in Ht. apply andb_prop in Ht as [Ha _].
          rewrite (pairs_then_hash_plain a _ Ha). reflexivity. }
    rewrite He, take_app_length, (replace2_plain "#" t Ht). reflexivity.
  - intros Hc. unfold clean_line.
    change ("\#" +:+ c) with (String "\" (String "#" c)).
    change ("#" +:+ c) with (String "#" c).
    assert (Hh : Py.has_char "#" (t +:+ String "\" (String "#" c)) = true).
    { rewrite has_char_app. cbn [Py.has_char].
      change (Ascii.eqb "#" "#") with true. rewrite !orb_true_r. reflexivity. }
    rewrite Hh.
    assert (He : commentre_end1 (t +:+ String "\" (String "#" c)) = None).
    { unfold commentre_end1. rewrite (commentre_scan_escaped t c 0 Ht Hc).
      destruct t as [|a t'].
      - reflexivity.
      - cbn [all_chars] in Ht. apply andb_prop in Ht as [Ha _].
        change (String a t' +:+ ?r) with (String a (t' +:+ r)).
        rewrite (pairs_then_hash_plain a _ Ha). reflexivity. }
    rewrite He, (replace2_escaped t c Ht Hc). reflexivity.
Qed.

Lemma comment_stripping_witness :
  clean_line "*.pyc  # compiled" = "*.pyc"
  ∧ clean_line "name\#1" = "name#1".
Proof.
  split.
  - exact (proj1 (proj2 (comment_stripping "*.pyc  " "" eq_refl)) " compiled").
  - exact (proj2 (proj2 (comment_stripping "name" "1" eq_refl)) eq_refl).
Defined.

(** ** Filesets and subincludes *)

Lemma elem_of_list_to_set_In (x : string) (l : list string) :
  x ∈ (list_to_set l : gset string) ↔ In x l.
Proof. rewrite elem_of_list_to_set. apply list_elem_of_In. Qed.

(** X16: [_expandsets] keeps the patterns that are no filesets, in their
    order.  Without a context it fails on the first fileset pattern and
    returns the patterns with no files otherwise; with a context it always
    succeeds, and the files it returns are those of the fileset patterns,
    with those of the subrepositories under their paths when
    [listsubrepos] is set. *)
Theorem expandsets_spec (kindpats : list kindpat) (ctx : option Ctx) (listsubrepos : bool) :
  let other := List.filter (fun kp => negb (String.eqb (kind_of kp) "set")) kindpats in
  match ctx with
  | None =>
      _expandsets kindpats ctx listsubrepos
      = if forallb (fun kp => negb (String.eqb (kind_of kp) "set")) kindpats
        then Ok (∅, kindpats)
        else Raise (Abort "fileset expression with no context")
  | Some c =>
      ∃ fset, _expandsets kindpats ctx listsubrepos = Ok (fset, other)
              ∧ ∀ f, f ∈ fset ↔
                     ∃ pat source, In ("set", pat, source) kindpats
                                   ∧ In f (fileset_files c listsubrepos pat)
  end.
Proof.
  cbv zeta. destruct ctx as [c|].
  - induction kindpats as [|[[kind pat] source] rest (fset & IH & Hf)].
    + exists ∅. split; [reflexivity|]. intros f. split; [set_solver|].
      intros (? & ? & [] & _).
    + cbn [_expandsets List.filter kind_of fst]. destruct (String.eqb_spec kind "set") as [->|Hk].
      * rewrite IH. cbn [negb]. eexists. split; [reflexivity|]. intros f.
        rewrite !elem_of_union, Hf. unfold fileset_files.
        split.
        -- intros [[Hs | Hs] | (p & s & Hin & Hs)].
           ++ exists pat, source. split; [left; reflexivity|].
              apply in_app_iff. left. apply elem_of_list_to_set_In, Hs.
           ++ exists pat, source. split; [left; reflexivity|].
              apply in_app_iff. right. destruct listsubrepos; [|set_solver].
              apply elem_of_list_to_set_In, Hs.
           ++ exists p, s. split; [right; exact Hin | exact Hs].
        -- intros (p & s & [Heq | Hin] & Hs).
           ++ injection Heq as <- <-. left. apply in_app_iff in Hs as [Hs | Hs].
              ** left. apply elem_of_list_to_set_In, Hs.
              ** right. destruct listsubrepos; [|destruct Hs].
                 apply elem_of_list_to_set_In, Hs.
           ++ right. exists p, s. auto.
      * rewrite IH. cbn [negb]. eexists. split; [reflexivity|]. intros f. rewrite Hf.
        split; intros (p & s & Hin & Hs); exists p, s; (split; [|exact Hs]).
        -- right. exact Hin.
        -- destruct Hin as [Heq | Hin]; [congruence | exact Hin].
  - induction kindpats as [|[[kind pat] source] rest IH]; [reflexivity|].
    cbn [_expandsets forallb kind_of fst]. destruct (String.eqb kind "set"); [reflexivity|].
    rewrite IH. cbn [negb andb].
    destruct (forallb _ rest); reflexivity.
Qed.

(** X17: [_expandsubinclude] keeps the patterns that are no subincludes,
    in their order, and makes one matcher description of every subinclude:
    its root is the directory of the named file, its only pattern includes
    that file and its prefix is that directory relative to the root of the
    repository, with a slash at the end unless it is empty.  It fails only
    with what [canonpath] raises for one of these directories. *)
Theorem expandsubinclude_spec (H : Host) (kindpats : list kindpat) (root : string) :
  match _expandsubinclude H kindpats root with
  | Ok (relmatchers, other) =>
      other = List.filter (fun kp => negb (String.eqb (kind_of kp) "subinclude")) kindpats
      ∧ length relmatchers + length other = length kindpats
      ∧ ∀ prefix args, In (prefix, args) relmatchers →
          ∃ pat source p,
            In ("subinclude", pat, source) kindpats
            ∧ args = (dirname H (subinclude_path H pat source), "", [],
                      ["include:" +:+ subinclude_path H pat source])
            ∧ canonpath H root root (dirname H (subinclude_path H pat source)) = Ok p
            ∧ prefix = (if String.eqb p "" then "" else p +:+ "/")
  | Raise e =>
      ∃ pat source,
        In ("subinclude", pat, source) kindpats
        ∧ canonpath H root root (dirname H (subinclude_path H pat source)) = Raise e
  end.
Proof.
  induction kindpats as [|[[kind pat] source] rest IH].
  - cbn [_expandsubinclude]. split; [reflexivity|]. split; [reflexivity|].
    intros ? ? [].
  - cbn [_expandsubinclude List.filter kind_of fst].
    destruct (String.eqb_spec kind "subinclude") as [->|Hk].
    + fold (subinclude_path H pat source).
      destruct (canonpath H root root (dirname H (subinclude_path H pat source)))
        as [p|e] eqn:Hc; cbn [mbind res_bind].
      * destruct (_expandsubinclude H rest root) as [[rel other]|e]; cbn [mbind res_bind].
        -- destruct IH as (Ho & Hlen & Hrel). cbn [negb length].
           split; [exact Ho|]. split; [lia|].
           intros prefix args [Heq | Hin].
           ++ injection Heq as <- <-. exists pat, source, p.
              split; [left; reflexivity|]. split; [reflexivity|]. split; [exact Hc|].
              destruct (String.eqb_spec p "") as [->|_]; reflexivity.
           ++ destruct (Hrel _ _ Hin) as (pat' & source' & p' & Hin' & Hrest).
              exists pat', source', p'. split; [right; exact Hin' | exact Hrest].
        -- destruct IH as (pat' & source' & Hin' & Hrest).
           exists pat', source'. split; [right; exact Hin' | exact Hrest].
      * exists pat, source. split; [left; reflexivity | exact Hc].
    + destruct (_expandsubinclude H rest root) as [[rel other]|e]; cbn [mbind res_bind].
      * destruct IH as (Ho & Hlen & Hrel). cbn [negb length].
        split; [rewrite Ho; reflexivity|]. split; [lia|].
        intros prefix args Hin.
        destruct (Hrel _ _ Hin) as (pat' & source' & p' & Hin' & Hrest).
        exists pat', source', p'. split; [right; exact Hin' | exact Hrest].
      * destruct IH as (pat' & source' & Hin' & Hrest).
        exists pat', source'. split; [right; exact Hin' | exact Hrest].
Qed.

(** ** Kinds after normalization *)

Lemma Forall_map_kind (default : string) (f : kindpat → kindpat) (kps : list kindpat) :
  (∀ kp, kind_of (f kp) = kind_of kp) →
  Forall (normalized_kind default) kps → Forall (normalized_kind default) (map f kps).
Proof.
  intros Hf Hk. apply Forall_map. eapply Forall_impl; [exact Hk|].
  intros kp. unfold normalized_kind. cbn beta. rewrite Hf. auto.
Qed.

Lemma str_in_false_In x l : str_in x l = false → ¬ In x l.
Proof. intros Hf Hin. apply str_in_In in Hin. congruence. Qed.

Lemma normalize_pattern_kinds H rec default root cwd warn p kps :
  (∀ ps l, outcome (rec ps) = Ok l → Forall (normalized_kind default) l) →
  outcome (normalize_pattern H rec default root cwd warn p) = Ok kps →
  Forall (normalized_kind default) kps.
Proof.
  intros Hrec. unfold normalize_pattern.
  destruct (_patsplit p default) as [kind pat] eqn:Hsplit.
  assert (Hknown : In kind known_kinds ∨ kind = default).
  { apply patsplit_lossless_aux in Hsplit as [[Hk _] | [Hk _]]; auto. }
  destruct (str_in kind ["glob"; "relpath"]) eqn:H1.
  { intros Hk. apply bind_Ok in Hk as (pat' & _ & Hk). apply ret_Ok in Hk. subst kps.
    constructor; [|constructor]. split; [|exact Hknown]. cbn [kind_of fst].
    apply str_in_In in H1. simpl in H1 |- *. intuition congruence. }
  destruct (str_in kind ["relglob"; "path"; "rootfilesin"]) eqn:H2.
  { intros Hk. apply ret_Ok in Hk. subst kps.
    constructor; [|constructor]. split; [|exact Hknown]. cbn [kind_of fst].
    apply str_in_In in H2. simpl in H2 |- *. intuition congruence. }
  destruct (str_in kind ["listfile"; "listfile0"]) eqn:H3.
  { destruct (readfile H pat) as [content|e]; [|discriminate].
    cbv zeta. intros Hk. apply bind_Ok in Hk as (l & Hl & Hk). apply ret_Ok in Hk.
    subst kps. apply Forall_map_kind; [intros [[? ?] ?]; reflexivity|].
    eapply Hrec, Hl. }
  destruct (String.eqb_spec kind "include") as [->|H4].
  { unfold try_include.
    destruct (outcome (readpatternfile H (pathjoin H root (localpath H pat)) warn
                       ≫= λ includepats, rec includepats)) as [l|e] eqn:Hb.
    - cbn [outcome]. intros [= <-].
      apply Forall_map_kind; [intros [[? ?] ?]; reflexivity|].
      apply bind_Ok in Hb as (ps & _ & Hb). eapply Hrec, Hb.
    - destruct e; cbn [outcome]; try discriminate. intros [= <-]. constructor. }
  intros Hk. apply ret_Ok in Hk. subst kps. constructor; [|constructor].
  split; [|exact Hknown]. cbn [kind_of fst]. apply str_in_false_In in H3.
  simpl in H3 |- *. intuition congruence.
Qed.

Lemma donormalize_loop_kinds H rec default root cwd warn patterns kps :
  (∀ ps l, outcome (rec ps) = Ok l → Forall (normalized_kind default) l) →
  outcome (donormalize_loop H rec default root cwd warn patterns) = Ok kps →
  Forall (normalized_kind default) kps.
Proof.
  intros Hrec. revert kps. induction patterns as [|p rest IH]; intros kps.
  - intros Hk. apply ret_Ok in Hk. subst kps. constructor.
  - cbn [donormalize_loop]. intros Hk. apply bind_Ok in Hk as (l1 & Hl1 & Hk).
    apply bind_Ok in Hk as (l2 & Hl2 & Hk). apply ret_Ok in Hk. subst kps.
    apply Forall_app. split.
    + eapply normalize_pattern_kinds; [exact Hrec | exact Hl1].
    + apply IH, Hl2.
Qed.

Lemma donormalize_kinds_all H fuel default root cwd warn :
  ∀ patterns kps,
    outcome (_donormalize H fuel patterns default root cwd warn) = Ok kps →
    Forall (normalized_kind default) kps.
Proof.
  induction fuel as [|fuel IH]; intros patterns kps; rewrite donormalize_unfold;
    apply donormalize_loop_kinds; cbn [normalize_nested].
  - intros ps l. discriminate.
  - exact IH.
Qed.

(** X18: the patterns that [_donormalize] returns are never of kind
    [listfile], [listfile0] or [include], those being replaced by what
    their files hold, and their kind is a known kind or the default. *)
Theorem donormalize_kinds H fuel patterns default root cwd warn kps :
  outcome (_donormalize H fuel patterns default root cwd warn) = Ok kps →
  ∀ kind pat source, In (kind, pat, source) kps →
    kind ≠ "listfile" ∧ kind ≠ "listfile0" ∧ kind ≠ "include"
    ∧ (In kind known_kinds ∨ kind = default).
Proof.
  intros Hk kind pat source Hin.
  pose proof (donormalize_kinds_all H fuel default root cwd warn patterns kps Hk) as Hall.
  rewrite Forall_forall in Hall.
  destruct (Hall _ (proj2 (list_elem_of_In _ _) Hin)) as [Hbad Hknown].
  cbn [kind_of fst] in Hbad, Hknown. simpl in Hbad. intuition congruence.
Qed.

Lemma donormalize_kinds_witness :
  outcome (_donormalize (Ref.host listed_files) 1 ["listfile:files"; "include:ignore"]
                        "glob" "/r" "/r" false)
  = Ok [("glob", "src/a.c", "files"); ("re", "x.*", "files"); ("relglob", "*.o", "ignore")]
  ∧ ∀ kind pat source,
      In (kind, pat, source)
         [("glob", "src/a.c", "files"); ("re", "x.*", "files"); ("relglob", "*.o", "ignore")] →
      kind ≠ "listfile" ∧ kind ≠ "listfile0" ∧ kind ≠ "include"
      ∧ (In kind known_kinds ∨ kind = "glob").
Proof.
  split; [vm_compute; reflexivity|].
  apply (donormalize_kinds (Ref.host listed_files) 1 ["listfile:files"; "include:ignore"]
           "glob" "/r" "/r" false).
  vm_compute. reflexivity.
Defined.

(** ** Case insensitive file systems *)

Lemma icase_patterns_identity (ds : Dirstate) (kps : list kindpat) :
  (∀ p, ds_normalize ds p = p) →
  flat_map (fun t : kindpat =>
          let '(kind, pats, source) := t in
          if negb (str_in kind ["re"; "relre"]) then
            let p := pats in
            let pats := ds_normalize ds pats in
            ((if negb (String.eqb p pats) && ds_contains ds p
              then [(kind, p, source)] else [])
             ++ [(kind, pats, source)])%list
          else [(kind, pats, source)]) kps = kps.
Proof.
  intros Hid.
  match goal with |- flat_map ?f _ = _ => set (F := f) end.
  induction kps as [|[[k p] s] kps IH]; [reflexivity|].
  change (flat_map F ((k, p, s) :: kps)) with (F (k, p, s) ++ flat_map F kps).
  rewrite IH. unfold F. cbv zeta. rewrite Hid, String.eqb_refl. cbn [negb andb app].
  destruct (negb _); reflexivity.
Qed.

(** X19: the normalization on a case insensitive file system succeeds
    when [_donormalize] does, with the same warnings.  Every pattern of
    [_donormalize] is returned with its text normalized by the dirstate
    (unchanged for [re] and [relre]), and as it is when the dirstate knows
    it; nothing else is returned, and with a dirstate that changes no name
    the result is that of [_donormalize]. *)
Theorem icase_normalize_keeps H ds fuel patterns default root cwd warn kps :
  outcome (_donormalize H fuel patterns default root cwd warn) = Ok kps →
  ∃ kps',
    outcome (icase_normalize H ds fuel patterns default root cwd warn) = Ok kps'
    ∧ warnings (icase_normalize H ds fuel patterns default root cwd warn)
      = warnings (_donormalize H fuel patterns default root cwd warn)
    ∧ (∀ k p s, In (k, p, s) kps →
         In (k, (if str_in k ["re"; "relre"] then p else ds_normalize ds p), s) kps'
         ∧ (ds_contains ds p = true → In (k, p, s) kps'))
    ∧ (∀ k p s, In (k, p, s) kps' →
         In (k, p, s) kps ∨ ∃ p0, In (k, p0, s) kps ∧ p = ds_normalize ds p0)
    ∧ ((∀ p, ds_normalize ds p = p) → kps' = kps).
Proof.
  intros Hk. unfold icase_normalize, mbind, M_bind. rewrite Hk. cbn [outcome warnings].
  eexists. split; [reflexivity|]. split; [apply app_nil_r|]. split; [|split].
  - intros k p s Hin. split.
    + apply in_flat_map. exists (k, p, s). split; [exact Hin|].
      destruct (str_in k ["re"; "relre"]); cbn [negb]; [left; reflexivity|].
      apply in_app_iff. right. left. reflexivity.
    + intros Hc. apply in_flat_map. exists (k, p, s). split; [exact Hin|].
      destruct (str_in k ["re"; "relre"]); cbn [negb]; [left; reflexivity|].
      rewrite Hc, andb_true_r. apply in_app_iff.
      destruct (String.eqb_spec p (ds_normalize ds p)) as [Heq|Hne]; cbn [negb].
      * right. left. rewrite <- Heq. reflexivity.
      * left. left. reflexivity.
  - intros k p s Hin. apply in_flat_map in Hin as ([[k0 p0] s0] & Hin0 & Hin).
    destruct (str_in k0 ["re"; "relre"]); cbn [negb] in Hin.
    + destruct Hin as [[= <- <- <-] | []]. left. exact Hin0.
    + apply in_app_iff in Hin as [Hin | [[= <- <- <-] | []]].
      * destruct (negb _ && _); [|destruct Hin].
        destruct Hin as [[= <- <- <-] | []]. left. exact Hin0.
      * right. exists p0. split; [exact Hin0 | reflexivity].
  - intros Hid. apply icase_patterns_identity, Hid.
Qed.

Lemma icase_normalize_keeps_witness :
  ∃ kps',
    outcome (icase_normalize (Ref.host []) upper_dirstate 0 ["readme"; "re:readme"]
                             "glob" "/r" "/r" false) = Ok kps'
    ∧ In ("glob", "README", "") kps' ∧ In ("re", "readme", "") kps'.
Proof.
  destruct (icase_normalize_keeps (Ref.host []) upper_dirstate 0 ["readme"; "re:readme"]
              "glob" "/r" "/r" false [("glob", "readme", ""); ("re", "readme", "")] eq_refl)
    as (kps' & Hk & _ & Hin & _).
  exists kps'. split; [exact Hk|]. split.
  - exact (proj1 (Hin "glob" "readme" "" (or_introl eq_refl))).
  - exact (proj1 (Hin "re" "readme" "" (or_intror (or_introl eq_refl)))).
Defined.

(** ** Errors and recovery of the regex builder *)

Lemma report_invalid_overflow H globsuffix (pre post : list kindpat) (kp : kindpat) :
  (∀ kp', In kp' pre → ∃ m, re_compile H (alone_regex H globsuffix kp') = ReMatcher m) →
  re_compile H (alone_regex H globsuffix kp) = ReOverflow →
  report_invalid H (pre ++ kp :: post) globsuffix = OverflowError.
Proof.
  intros Hpre Hbad. induction pre as [|[[k' p'] s'] pre IH]; cbn [app report_invalid].
  - destruct kp as [[k p] s]. cbn [alone_regex] in Hbad. rewrite Hbad. reflexivity.
  - destruct (Hpre (k', p', s') (or_introl eq_refl)) as [m Hm]. cbn [alone_regex] in Hm.
    rewrite Hm. apply IH. intros kp' Hin. apply Hpre. right. exact Hin.
Qed.

(** X20: when the engine rejects the composed regular expression of a
    list, [_buildregexmatch] tries the patterns one by one, in order.  The
    first one that the engine rejects on its own, the ones before it being
    accepted, is reported by an [Abort] that names its source, its kind
    and its text; when the engine accepts each of them, the [Abort] names
    no pattern; and an overflow of the engine on one of them, the ones
    before it being accepted, is raised as it is. *)
Theorem buildregexmatch_invalid_pattern H kindpats globsuffix :
  (Z.of_nat (String.length (compose_regex H kindpats globsuffix)) <= 20000)%Z →
  re_compile H (compose_regex H kindpats globsuffix) = ReError →
  (∀ before k p s after,
     kindpats = before ++ (k, p, s) :: after →
     (∀ kp, In kp before → ∃ m, re_compile H (alone_regex H globsuffix kp) = ReMatcher m) →
     re_compile H (alone_regex H globsuffix (k, p, s)) = ReError →
     _buildregexmatch H kindpats globsuffix = Raise (Abort (invalid_pattern_message k p s)))
  ∧ ((∀ kp, In kp kindpats →
            ∃ m, re_compile H (alone_regex H globsuffix kp) = ReMatcher m) →
     _buildregexmatch H kindpats globsuffix = Raise (Abort "invalid pattern"))
  ∧ (∀ before kp after,
       kindpats = before ++ kp :: after →
       (∀ kp', In kp' before →
               ∃ m, re_compile H (alone_regex H globsuffix kp') = ReMatcher m) →
       re_compile H (alone_regex H globsuffix kp) = ReOverflow →
       _buildregexmatch H kindpats globsuffix = Raise OverflowError).
Proof.
  intros Hlen Hre.
  assert (Hb : _buildregexmatch H kindpats globsuffix
               = Raise (report_invalid H kindpats globsuffix)).
  { rewrite buildregexmatch_unfold, (try_compile_rejected_intro H _ Hlen Hre). reflexivity. }
  rewrite Hb. split; [|split].
  - intros before k p s after -> Hbefore Hbad. f_equal.
    apply report_invalid_first; assumption.
  - intros Hall. f_equal. apply report_invalid_none, Hall.
  - intros before kp after -> Hbefore Hbad. f_equal.
    apply report_invalid_overflow; assumption.
Qed.

Lemma buildregexmatch_invalid_pattern_witness :
  _buildregexmatch (Ref.host []) [("glob", "a", "x"); ("re", "[", "f")] "$"
  = Raise (Abort "f: invalid pattern (re): [").
Proof.
  apply (proj1 (buildregexmatch_invalid_pattern (Ref.host [])
                  [("glob", "a", "x"); ("re", "[", "f")] "$"
                  ltac:(vm_compute; discriminate) ltac:(vm_compute; reflexivity))
           [("glob", "a", "x")] "re" "[" "f" []).
  - reflexivity.
  - intros kp [<- | []]. vm_compute. eexists. reflexivity.
  - vm_compute. reflexivity.
Defined.

Lemma try_compile_rejected H regex :
  try_compile H regex = Rejected → re_compile H regex = ReError.
Proof.
  unfold try_compile. destruct (20000 <? _)%Z; [discriminate|].
  destruct (re_compile H regex); intros Hc; simplify_eq/=; reflexivity.
Qed.

Lemma window_single {A : Type} (i : nat) (l : list A) :
  i < length l → ∃ x, window i (S i) l = [x] ∧ In x l.
Proof.
  intros Hi. unfold window. replace (S i - i) with 1 by lia.
  destruct (drop i l) as [|x r] eqn:Hd.
  - apply (f_equal length) in Hd. rewrite length_drop in Hd. simpl in Hd. lia.
  - exists x. split; [reflexivity|].
    rewrite <- (take_drop i l), Hd. apply in_app_iff. right. left. reflexivity.
Qed.

Section Recovery.
Variable H : Host.
Variable globsuffix : string.
Variable kindpats : list kindpat.

Hypothesis no_error :
  ∀ i k, i < k → k ≤ length kindpats →
    re_compile H (compose_regex H (window i k kindpats) globsuffix) ≠ ReError.
Hypothesis single_fits :
  ∀ kp, In kp kindpats → try_compile H (compose_regex H [kp] globsuffix) ≠ Overflowed.

Lemma buildregexmatch_window_succeeds (n i k : nat) :
  k - i ≤ n → i < k → k ≤ length kindpats →
  ∃ m, _buildregexmatch H (window i k kindpats) globsuffix
       = Ok (compose_regex H (window i k kindpats) globsuffix, m).
Proof.
  revert i k. induction n as [|n IH]; intros i k Hn Hik Hk; [lia|].
  rewrite buildregexmatch_unfold.
  destruct (try_compile H _) as [m| |] eqn:Htry.
  - eauto.
  - destruct (le_lt_dec 2 (length (window i k kindpats))) as [Hl|Hl];
      rewrite window_length in Hl by lia.
    + rewrite window_length by lia.
      set (j := i + (k - i) / 2).
      assert (Hj : i < j ∧ j < k).
      { pose proof (Nat.div_lt (k - i) 2). pose proof (Nat.div_str_pos (k - i) 2).
        unfold j. lia. }
      replace ((k - i) / 2) with (j - i) by (unfold j; lia).
      rewrite window_take, window_drop by lia.
      destruct (IH i j ltac:(lia) ltac:(lia) ltac:(lia)) as (a & ->).
      destruct (IH j k ltac:(lia) ltac:(lia) ltac:(lia)) as (b & ->).
      cbn [mbind res_bind]. eauto.
    + exfalso. assert (k = S i) as -> by lia.
      destruct (window_single i kindpats ltac:(lia)) as (kp & Hw & Hin).
      rewrite Hw in Htry. exact (single_fits kp Hin Htry).
  - exfalso. apply try_compile_rejected in Htry. exact (no_error i k Hik Hk Htry).
Qed.
End Recovery.

(** X21: the split recovers from overflows: when the engine rejects none
    of the expressions of the runs of consecutive patterns of a non-empty
    list, and every pattern on its own fits the engine and the limit of
    20000 characters, a matcher is built, with the composed regular
    expression of the whole list. *)
Theorem buildregexmatch_succeeds H kindpats globsuffix :
  kindpats ≠ [] →
  (∀ i k, i < k → k ≤ length kindpats →
     re_compile H (compose_regex H (window i k kindpats) globsuffix) ≠ ReError) →
  (∀ kp, In kp kindpats → try_compile H (compose_regex H [kp] globsuffix) ≠ Overflowed) →
  ∃ m, _buildregexmatch H kindpats globsuffix = Ok (compose_regex H kindpats globsuffix, m).
Proof.
  intros Hne Herr Hfit.
  assert (Hlen : 0 < length kindpats) by (destruct kindpats; [contradiction | simpl; lia]).
  pose proof (buildregexmatch_window_succeeds H globsuffix kindpats Herr Hfit
                (length kindpats) 0 (length kindpats) ltac:(lia) Hlen (le_n _)) as Hw.
  rewrite window_all in Hw. exact Hw.
Qed.

Lemma buildregexmatch_succeeds_witness :
  ∃ m, _buildregexmatch Ref.tiny_host two_kindpats "$"
       = Ok ("(?:^src(?:/|$)|(?:|.*/)[^/]*\.c$)", m).
Proof.
  apply (buildregexmatch_succeeds Ref.tiny_host two_kindpats "$").
  - discriminate.
  - intros i k Hi Hk. simpl in Hk.
    assert (Hc : (i = 0 ∧ k = 1) ∨ (i = 0 ∧ k = 2) ∨ (i = 1 ∧ k = 2)) by lia.
    destruct Hc as [[-> ->] | [[-> ->] | [-> ->]]]; vm_compute; discriminate.
  - intros kp [<- | [<- | []]]; vm_compute; discriminate.
Defined.

(** ** Patterns, include and exclude together *)

Lemma lift_Ok {A : Type} (r : res A) (v : A) : outcome (lift r) = Ok v → r = Ok v.
Proof. intros Hr. exact Hr. Qed.

Lemma matcher_init_parts H normalize submatch root cwd patterns include exclude default
    exact_ ctx listsubrepos o :
  outcome (matcher_init H normalize submatch root cwd patterns include exclude default
                        exact_ ctx listsubrepos) = Ok o →
  ∃ oi oe op,
    outcome (matcher_init H normalize submatch root cwd [] include [] default false ctx
                          listsubrepos) = Ok oi
    ∧ outcome (matcher_init H normalize submatch root cwd [] exclude [] default false ctx
                            listsubrepos) = Ok oe
    ∧ outcome (matcher_init H normalize submatch root cwd patterns [] [] default exact_ ctx
                            listsubrepos) = Ok op
    ∧ o_files o = o_files op
    ∧ ∀ f, matchfn (Matcher o) f
           = (bi ← matchfn (Matcher oi) f;
              if bi : bool then
                be ← (if nonempty exclude then matchfn (Matcher oe) f else Ok false);
                if be : bool then Ok false else matchfn (Matcher op) f
              else Ok false).
Proof.
  unfold matcher_init. intros Ho.
  destruct include as [|i include]; destruct exclude as [|x exclude];
    cbn [nonempty orb] in Ho |- *.
  all: destruct exact_; [|destruct patterns as [|p patterns]]; cbn [nonempty orb] in Ho |- *.
  all: inv_M_eqn; simplify_eq/=.
  all: repeat match goal with
       | Hl : outcome (lift ?r) = Ok _ |- _ => apply lift_Ok in Hl
       end.
  all: unfold mbind, M_bind; cbn [outcome mret M_ret lift].
  all: repeat match goal with
       | Hn : outcome ?c = Ok _ |- context [outcome ?c] => rewrite Hn; cbn [outcome mret M_ret lift]
       | Hn : _buildmatch _ _ _ _ _ _ _ = Ok _ |- _ => rewrite Hn; cbn [outcome mret M_ret lift]
       | Hn : _rootsanddirs _ = _ |- _ => rewrite Hn; cbn [outcome mret M_ret lift]
       | Hn : negb (_kindpatsalwaysmatch _) = _ |- _ => rewrite Hn; cbn [outcome mret M_ret lift]
       | |- context [_rootsanddirs ?k] => destruct (_rootsanddirs k); cbn [outcome mret M_ret lift]
       end.
  all: do 3 eexists; (split; [reflexivity|]); (split; [reflexivity|]);
       (split; [reflexivity|]); (split; [reflexivity|]).
  all: intros f; cbn [matchfn o_matchfn app all_match call_matchfunc].
  all: unfold _fileset; cbn [files o_files].
  all: unfold mbind, res_bind, fmap, res_fmap.
  all: repeat match goal with
       | |- context [match ?g ?a with Ok _ => _ | Raise _ => _ end] =>
           is_var g; destruct (g a) as [[]|]; cbn [negb]
       end; try reflexivity.
  all: destruct (bool_decide _); reflexivity.
Qed.

Lemma outcome_bind_ret {A B : Type} (c : M A) (g : A → B) (x : A) :
  outcome c = Ok x → outcome (c ≫= λ o, mret (g o)) = Ok (g x).
Proof. intros Hc. unfold mbind, M_bind. rewrite Hc. reflexivity. Qed.

(** X22: a matcher built from patterns, include patterns and exclude
    patterns answers like the matchers built from each of them alone: the
    matcher of the include patterns must match, the matcher that includes
    the exclude patterns must not, when there are exclude patterns, and
    then the matcher of the patterns decides.  The three are built whenever
    the whole is, and the files are those of the matcher of the
    patterns. *)
Theorem match_composition H fuel root cwd patterns include exclude default exact_ ctx
    listsubrepos warn icasefs m :
  outcome (match_ H fuel root cwd patterns include exclude default exact_ ctx listsubrepos
                  warn icasefs) = Ok m →
  ∃ mi me mp,
    outcome (match_ H fuel root cwd [] include [] default false ctx listsubrepos warn icasefs)
    = Ok mi
    ∧ outcome (match_ H fuel root cwd [] exclude [] default false ctx listsubrepos warn
                      icasefs) = Ok me
    ∧ outcome (match_ H fuel root cwd patterns [] [] default exact_ ctx listsubrepos warn
                      icasefs) = Ok mp
    ∧ files m = files mp
    ∧ ∀ f, matches m f
           = (bi ← matches mi f;
              if bi : bool then
                be ← (if nonempty exclude then matches me f else Ok false);
                if be : bool then Ok false else matches mp f
              else Ok false).
Proof.
  rewrite !match_unfold. intros Hm.
  apply bind_Ok in Hm as (o & Ho & Hm). apply ret_Ok in Hm. subst m.
  destruct (matcher_init_parts _ _ _ _ _ _ _ _ _ _ _ _ _ Ho)
    as (oi & oe & op & Hi & He & Hp & Hfiles & Hmatch).
  exists (Matcher oi), (Matcher oe), (Matcher op).
  split; [apply outcome_bind_ret, Hi|]. split; [apply outcome_bind_ret, He|].
  split; [apply outcome_bind_ret, Hp|]. split; [exact Hfiles | exact Hmatch].
Qed.

Lemma match_composition_witness :
  ∃ m, outcome (match_ (Ref.host []) 0 "/r" "/r" ["path:src"] ["relglob:*.c"]
                       ["path:src/gen"] "glob" false None false false None) = Ok m
       ∧ matches m "src/a.c" = Ok true
       ∧ matches m "src/gen/a.c" = Ok false
       ∧ matches m "src/a.h" = Ok false.
Proof.
  eexists. split; [rewrite match_unfold; reflexivity|].
  match goal with |- matches ?x _ = _ ∧ _ => set (m := x) end.
  destruct (match_composition (Ref.host []) 0 "/r" "/r" ["path:src"] ["relglob:*.c"]
              ["path:src/gen"] "glob" false None false false None m)
    as (mi & me & mp & Hi & He & Hp & _ & Hmatch).
  { rewrite match_unfold. reflexivity. }
  rewrite match_unfold in Hi, He, Hp.
  injection Hi as <-. injection He as <-. injection Hp as <-.
  rewrite !Hmatch. repeat split; vm_compute; reflexivity.
Defined.

(** ** Pattern lists without files *)

(** X23: for patterns without subincludes and filesets, [_buildmatch]
    needs neither the context nor the root: it returns what
    [_buildregexmatch] returns for the list, and a function that matches
    nothing for the empty list. *)
Theorem buildmatch_plain H submatch ctx kindpats globsuffix listsubrepos root :
  (∀ kp, In kp kindpats → kind_of kp ≠ "subinclude" ∧ kind_of kp ≠ "set") →
  _buildmatch H submatch ctx kindpats globsuffix listsubrepos root
  = match kindpats with
    | [] => Ok ("", fun _ => Ok false)
    | _ => '(regex, mf) ← _buildregexmatch H kindpats globsuffix;
           Ok (regex, fun f => Ok (mf f))
    end.
Proof.
  intros Hk. unfold _buildmatch.
  rewrite expandsubinclude_none by (intros kp Hin; apply Hk, Hin).
  cbn [mbind res_bind].
  rewrite expandsets_none by (intros kp Hin; apply Hk, Hin).
  cbn [mbind res_bind].
  rewrite (bool_decide_eq_false_2 ((∅ : gset string) ≠ ∅)) by (intros Hn; apply Hn; reflexivity).
  destruct kindpats as [|kp rest]; [reflexivity|].
  destruct (_buildregexmatch H (kp :: rest) globsuffix) as [[regex mf]|e]; reflexivity.
Qed.

Lemma buildmatch_plain_witness :
  ∃ mf, _buildmatch (Ref.host []) (fun _ _ => Raise OutOfFuel) None
                    [("path", "src", ""); ("relglob", "*.c", "")] "$" false "/r"
        = Ok ("(?:^src(?:/|$)|(?:|.*/)[^/]*\.c$)", mf)
        ∧ mf "lib/a.c" = Ok true ∧ mf "lib/a.h" = Ok false.
Proof.
  eexists. split.
  - rewrite (buildmatch_plain (Ref.host []) (fun _ _ => Raise OutOfFuel) None
               [("path", "src", ""); ("relglob", "*.c", "")] "$" false "/r").
    + rewrite buildregexmatch_unfold. reflexivity.
    + intros kp [<- | [<- | []]]; split; discriminate.
  - split; vm_compute; reflexivity.
Defined.

(** ** Directories visited for patterns alone *)

(** [visitdir] of a matcher without include and exclude patterns: the files
    alone decide *)
Lemma visitdir_patterns_only (o : matcher_obj) (d : string) :
  o_includeroots o = ∅ → o_includedirs o = ∅ → o_excluderoots o = ∅ →
  matcher_visitdir (Matcher o) o d
  = if prefix (Matcher o) && bool_decide (d ∈ _fileset (Matcher o)) then VAll
    else visit_of_bool
           (negb (bool_decide (_fileset (Matcher o) ≠ ∅))
            || bool_decide ("." ∈ _fileset (Matcher o))
            || bool_decide (d ∈ _fileset (Matcher o))
            || bool_decide (d ∈ _dirs (Matcher o))
            || existsb (fun parentdir => bool_decide (parentdir ∈ _fileset (Matcher o)))
                       (finddirs d)).
Proof.
  intros Hr Hd He. unfold matcher_visitdir. rewrite Hr, Hd, He.
  rewrite (bool_decide_eq_false_2 (d ∈ (∅ : gset string))) by apply not_elem_of_empty.
  rewrite (bool_decide_eq_false_2 ((∅ : gset string) ≠ ∅)) by (intros Hn; apply Hn; reflexivity).
  reflexivity.
Qed.

Lemma visit_of_bool_true (b : bool) : b = true → visit_of_bool b ≠ VFalse.
Proof. intros ->. discriminate. Qed.

Lemma matcher_init_no_include H normalize submatch root cwd patterns default exact_ ctx
    listsubrepos o :
  outcome (matcher_init H normalize submatch root cwd patterns [] [] default exact_ ctx
                        listsubrepos) = Ok o →
  o_includeroots o = ∅ ∧ o_includedirs o = ∅ ∧ o_excluderoots o = ∅.
Proof.
  unfold matcher_init. cbn [nonempty orb]. intros Ho.
  inv_M_eqn; simplify_eq/=; auto.
Qed.

(** X24: a matcher built from patterns alone never prunes on the way to
    its files: [visitdir] does not answer [False] for the top directory,
    for a file of the matcher, for an ancestor of a file, or for a
    directory below a file; without files it answers [True] everywhere. *)
Theorem patterns_only_visits_files H fuel root cwd patterns default exact_ ctx listsubrepos
    warn icasefs m :
  outcome (match_ H fuel root cwd patterns [] [] default exact_ ctx listsubrepos warn
                  icasefs) = Ok m →
  visitdir m "." ≠ VFalse
  ∧ (files m = [] → ∀ d, visitdir m d = VTrue)
  ∧ (∀ f, In f (files m) →
       visitdir m f ≠ VFalse
       ∧ (∀ a, In a (finddirs f) → visitdir m a ≠ VFalse)
       ∧ (∀ d, In f (finddirs d) → visitdir m d ≠ VFalse)).
Proof.
  rewrite match_unfold. intros Hm.
  apply bind_Ok in Hm as (o & Ho & Hm). apply ret_Ok in Hm. subst m.
  apply matcher_init_no_include in Ho as (Hr & Hd & He).
  assert (Hv : ∀ d b, (prefix (Matcher o) && bool_decide (d ∈ _fileset (Matcher o)) = false →
                       negb (bool_decide (_fileset (Matcher o) ≠ ∅))
                       || bool_decide ("." ∈ _fileset (Matcher o))
                       || bool_decide (d ∈ _fileset (Matcher o))
                       || bool_decide (d ∈ _dirs (Matcher o))
                       || existsb (fun parentdir =>
                                     bool_decide (parentdir ∈ _fileset (Matcher o)))
                                  (finddirs d) = b) →
                b = true → visitdir (Matcher o) d ≠ VFalse).
  { intros d b Hb ->. cbn [visitdir]. rewrite (visitdir_patterns_only o d Hr Hd He).
    destruct (prefix _ && _) eqn:Hp; [discriminate|].
    rewrite (Hb eq_refl). discriminate. }
  split; [|split].
  - eapply Hv; [intros _; reflexivity|].
    assert (Hdot : "." ∈ _dirs (Matcher o)) by (unfold _dirs; set_solver).
    rewrite (bool_decide_eq_true_2 _ Hdot), !orb_true_r. reflexivity.
  - intros Hf d. cbn [visitdir]. rewrite (visitdir_patterns_only o d Hr Hd He).
    unfold _fileset. cbn [files] in Hf |- *. rewrite Hf.
    rewrite (bool_decide_eq_false_2 (d ∈ (list_to_set [] : gset string)))
      by apply not_elem_of_empty.
    rewrite andb_false_r.
    rewrite (bool_decide_eq_false_2 ((list_to_set [] : gset string) ≠ ∅))
      by (intros Hn; apply Hn; reflexivity).
    reflexivity.
  - intros f Hf.
    assert (Hin : f ∈ _fileset (Matcher o)).
    { unfold _fileset. apply elem_of_list_to_set, list_elem_of_In, Hf. }
    split; [|split].
    + eapply Hv; [intros _; reflexivity|].
      rewrite (bool_decide_eq_true_2 _ Hin), !orb_true_r. reflexivity.
    + intros a Ha. eapply Hv; [intros _; reflexivity|].
      pose proof (elem_of_matcher_dirs _ _ _ Hin (proj2 (list_elem_of_In _ _) Ha)) as Hdirs.
      rewrite (bool_decide_eq_true_2 _ Hdirs), !orb_true_r. reflexivity.
    + intros d Hd'. eapply Hv; [intros _; reflexivity|].
      assert (Hex : existsb (fun parentdir => bool_decide (parentdir ∈ _fileset (Matcher o)))
                            (finddirs d) = true).
      { apply existsb_exists. exists f. split; [exact Hd'|].
        apply bool_decide_eq_true_2, Hin. }
      rewrite Hex, !orb_true_r. reflexivity.
Qed.

Lemma patterns_only_visits_files_witness :
  ∃ m, outcome (match_ (Ref.host []) 0 "/r" "/r" ["glob:src/lib/*.c"] [] [] "glob" false
                       None false false None) = Ok m
       ∧ files m = ["src/lib"]
       ∧ visitdir m "src" ≠ VFalse
       ∧ visitdir m "src/lib/x" ≠ VFalse
       ∧ visitdir m "doc" = VFalse.
Proof.
  eexists. split; [rewrite match_unfold; reflexivity|]. split; [reflexivity|].
  match goal with |- visitdir ?x _ ≠ _ ∧ _ => set (m := x) end.
  destruct (patterns_only_visits_files (Ref.host []) 0 "/r" "/r" ["glob:src/lib/*.c"] "glob"
              false None false false None m) as (_ & _ & Hf).
  { rewrite match_unfold. reflexivity. }
  destruct (Hf "src/lib" (or_introl eq_refl)) as (_ & Hup & Hdown).
  split; [apply Hup; simpl; auto|]. split; [apply Hdown; simpl; auto|].
  vm_compute. reflexivity.
Defined.

(** ** Patterns that name no file of patterns *)

Lemma normalize_pattern_plain H rec default root cwd warn p kps :
  ¬ In (fst (_patsplit p default)) ["listfile"; "listfile0"; "include"] →
  outcome (normalize_pattern H rec default root cwd warn p) = Ok kps →
  warnings (normalize_pattern H rec default root cwd warn p) = []
  ∧ ∃ kp, kps = [kp] ∧ normalized_as H default root cwd p kp.
Proof.
  unfold normalize_pattern, normalized_as.
  destruct (_patsplit p default) as [kind pat]. cbn [fst]. intros Hk.
  destruct (str_in kind ["glob"; "relpath"]).
  { unfold mbind, M_bind, lift. cbn [outcome warnings].
    destruct (canonpath H root cwd pat) as [pat'|e]; cbn [outcome warnings mret M_ret];
      [|discriminate].
    intros [= <-]. split; [reflexivity|]. eauto. }
  destruct (str_in kind ["relglob"; "path"; "rootfilesin"]).
  { intros [= <-]. split; [reflexivity|]. eauto. }
  destruct (str_in kind ["listfile"; "listfile0"]) eqn:H3.
  { exfalso. apply Hk. apply str_in_In in H3. simpl in H3 |- *. tauto. }
  destruct (String.eqb_spec kind "include") as [->|_].
  { exfalso. apply Hk. simpl. tauto. }
  intros [= <-]. split; [reflexivity|]. eauto.
Qed.

Lemma donormalize_loop_plain H rec default root cwd warn patterns :
  (∀ p, In p patterns →
        ¬ In (fst (_patsplit p default)) ["listfile"; "listfile0"; "include"]) →
  ∀ kps, outcome (donormalize_loop H rec default root cwd warn patterns) = Ok kps →
  warnings (donormalize_loop H rec default root cwd warn patterns) = []
  ∧ Forall2 (normalized_as H default root cwd) patterns kps.
Proof.
  induction patterns as [|p rest IH]; intros Hk kps.
  - intros [= <-]. split; [reflexivity | constructor].
  - cbn [donormalize_loop]. unfold mbind, M_bind.
    destruct (outcome (normalize_pattern H rec default root cwd warn p)) as [l1|e] eqn:H1;
      [|discriminate].
    destruct (normalize_pattern_plain H rec default root cwd warn p l1
                (Hk p (or_introl eq_refl)) H1) as (Hw1 & kp & -> & Hkp).
    cbn [outcome warnings].
    destruct (outcome (donormalize_loop H rec default root cwd warn rest)) as [l2|e] eqn:H2;
      [|discriminate].
    destruct (IH (fun q Hq => Hk q (or_intror Hq)) l2 eq_refl) as (Hw2 & Hall).
    cbn [outcome warnings mret M_ret]. intros [= <-].
    rewrite Hw1, Hw2. split; [reflexivity|]. constructor; assumption.
Qed.

Lemma normalize_pattern_indep H rec rec' default root cwd warn warn' p :
  ¬ In (fst (_patsplit p default)) ["listfile"; "listfile0"; "include"] →
  normalize_pattern H rec default root cwd warn p
  = normalize_pattern H rec' default root cwd warn' p.
Proof.
  unfold normalize_pattern. destruct (_patsplit p default) as [kind pat]. cbn [fst].
  intros Hk.
  destruct (str_in kind ["glob"; "relpath"]); [reflexivity|].
  destruct (str_in kind ["relglob"; "path"; "rootfilesin"]); [reflexivity|].
  destruct (str_in kind ["listfile"; "listfile0"]) eqn:H3.
  { exfalso. apply Hk. apply str_in_In in H3. simpl in H3 |- *. tauto. }
  destruct (String.eqb_spec kind "include") as [->|_]; [|reflexivity].
  exfalso. apply Hk. simpl. tauto.
Qed.

Lemma donormalize_loop_indep H rec rec' default root cwd warn warn' patterns :
  (∀ p, In p patterns →
        ¬ In (fst (_patsplit p default)) ["listfile"; "listfile0"; "include"]) →
  donormalize_loop H rec default root cwd warn patterns
  = donormalize_loop H rec' default root cwd warn' patterns.
Proof.
  induction patterns as [|p rest IH]; intros Hk; [reflexivity|].
  cbn [donormalize_loop].
  rewrite (normalize_pattern_indep H rec rec' default root cwd warn warn' p)
    by (apply Hk; left; reflexivity).
  rewrite IH by (intros q Hq; apply Hk; right; exact Hq). reflexivity.
Qed.

(** X25: for patterns that are no list files and no include files,
    [_donormalize] returns one pattern for each, in order, with an empty
    source: [glob] and [relpath] texts go through [canonpath], [relglob],
    [path] and [rootfilesin] texts through [normpath], the others are
    kept.  Nothing is warned about, and the result depends neither on the
    warn callback nor on how deep files may refer to files. *)
Theorem donormalize_plain H fuel patterns default root cwd warn kps :
  (∀ p, In p patterns →
        ¬ In (fst (_patsplit p default)) ["listfile"; "listfile0"; "include"]) →
  outcome (_donormalize H fuel patterns default root cwd warn) = Ok kps →
  _donormalize H fuel patterns default root cwd warn = MkM (Ok kps) []
  ∧ (∀ fuel' warn', _donormalize H fuel' patterns default root cwd warn' = MkM (Ok kps) [])
  ∧ Forall2 (normalized_as H default root cwd) patterns kps.
Proof.
  intros Hk Hn. rewrite donormalize_unfold in Hn.
  destruct (donormalize_loop_plain H _ default root cwd warn patterns Hk kps Hn)
    as (Hw & Hall).
  assert (Heq : donormalize_loop H (normalize_nested H fuel default root cwd warn)
                  default root cwd warn patterns = MkM (Ok kps) [])
    by (apply M_eq; assumption).
  split; [|split; [|exact Hall]].
  - rewrite donormalize_unfold. exact Heq.
  - intros fuel' warn'. rewrite donormalize_unfold, <- Heq.
    apply donormalize_loop_indep, Hk.
Qed.

Lemma donormalize_plain_witness :
  _donormalize (Ref.host []) 3 ["src"; "path:doc/api"; "re:a.*b"] "glob" "/r" "/r" true
  = MkM (Ok [("glob", "src", ""); ("path", "doc/api", ""); ("re", "a.*b", "")]) [].
Proof.
  apply (donormalize_plain (Ref.host []) 3 ["src"; "path:doc/api"; "re:a.*b"] "glob"
           "/r" "/r" true).
  - intros p [<- | [<- | [<- | []]]]; vm_compute; intuition discriminate.
  - vm_compute. reflexivity.
Defined.
